(** * NiriSetup: a shallow embedding of the setup assistant

    The development follows the complete variant of [NiriSetup.go] (the one
    with the presence check, the system setup action and the render-device
    probe).  The terminal UI is a pure reducer [Update]; the setup actions
    are programs in a small state monad over a model of the operating
    system (file system, environment, history of child processes). *)

From Stdlib Require Import ZArith String Ascii List Lia OrderedTypeEx Sorting.
From stdpp Require Import base option list gmap strings pretty fin_maps.

Local Open Scope Z_scope.

(** ** Go's [int] (64 bits) *)

Definition int_min : Z := - 2 ^ 63.
Definition int_max : Z := 2 ^ 63 - 1.

Definition int_wrap (z : Z) : Z := (z + 2 ^ 63) mod 2 ^ 64 - 2 ^ 63.

Definition int_add (a b : Z) : Z := int_wrap (a + b).
Definition int_sub (a b : Z) : Z := int_wrap (a - b).

(** [len(s)] of a slice. *)
Definition len {A} (l : list A) : Z := Z.of_nat (length l).

(** [s[i]]: [None] stands for the run-time panic "index out of range". *)
Definition index {A} (l : list A) (i : Z) : option A :=
  if i <? 0 then None else l !! Z.to_nat i.

(** ** The Go [error] values that occur in the program *)

Inductive errno := ENOENT | EACCES | EEXIST | EISDIR | ENOTDIR.

Inductive error :=
  | PathError (op path : string) (e : errno)   (* *fs.PathError *)
  | ExitError (code : Z)                        (* *exec.ExitError *)
  | ErrorString (s : string).                   (* errors.New, fmt.Errorf *)

Definition errno_text (e : errno) : string :=
  match e with
  | ENOENT => "no such file or directory"
  | EACCES => "permission denied"
  | EEXIST => "file exists"
  | EISDIR => "is a directory"
  | ENOTDIR => "not a directory"
  end.

(** [err.Error()], which is what the verb [%v] prints. *)
Definition error_text (e : error) : string :=
  match e with
  | PathError op path no => op +:+ " " +:+ path +:+ ": " +:+ errno_text no
  | ExitError code => "exit status " +:+ pretty code
  | ErrorString s => s
  end.

(** [os.IsNotExist(err)]; [err] may be nil. *)
Definition IsNotExist (e : option error) : bool :=
  match e with
  | Some (PathError _ _ ENOENT) => true
  | _ => false
  end.

(** * The menu / state UI *)

Inductive appState := menuView | installView | actionView.

Record model := Model {
  state : appState;
  choices : list string;
  cursor : Z;
  selected : string;
  logs : list string;
  isProcessing : bool;
  progress : string;
  actionMsg : string
}.

Record statusMsg := StatusMsg { status : string; err : option error }.

(** A [tea.Cmd] as returned by [Update]: [tea.Quit], or one of the five
    action closures.  [saveLogsToFile(m)] captures the model it is given. *)
Inductive Cmd :=
  | Quit
  | CmdInstallNiri
  | CmdSetupSystem
  | CmdConfigureNiri
  | CmdValidateNiriConfig
  | CmdSaveLogsToFile (m : model).

(** A [tea.Msg]: a key press (by its [String()]), the completion message of
    an action, or any other message of the framework. *)
Inductive Msg :=
  | KeyMsg (key : string)
  | Status (s : statusMsg)
  | OtherMsg.

(** What a call of [Update] does: it returns, or it panics. *)
Inductive result :=
  | Returned (m : model) (c : option Cmd)
  | Panicked.

Definition set_state (m : model) (s : appState) : model :=
  Model s (choices m) (cursor m) (selected m) (logs m) (isProcessing m)
        (progress m) (actionMsg m).
Definition set_cursor (m : model) (c : Z) : model :=
  Model (state m) (choices m) c (selected m) (logs m) (isProcessing m)
        (progress m) (actionMsg m).
Definition set_selected (m : model) (s : string) : model :=
  Model (state m) (choices m) (cursor m) s (logs m) (isProcessing m)
        (progress m) (actionMsg m).
Definition set_logs (m : model) (l : list string) : model :=
  Model (state m) (choices m) (cursor m) (selected m) l (isProcessing m)
        (progress m) (actionMsg m).
Definition set_isProcessing (m : model) (b : bool) : model :=
  Model (state m) (choices m) (cursor m) (selected m) (logs m) b
        (progress m) (actionMsg m).
Definition set_actionMsg (m : model) (s : string) : model :=
  Model (state m) (choices m) (cursor m) (selected m) (logs m)
        (isProcessing m) (progress m) s.

Definition initialModel : model :=
  Model menuView
        ["Install Niri"; "Setup System"; "Configure Niri"; "Validate Config";
         "Save Logs"; "Exit"]
        0 "" [] false "" "".

(** The [enter] case of the menu: [m.selected = m.choices[m.cursor]] and the
    inner switch on the label.  A label matching no case falls out of the
    switch to the final [return m, nil]. *)
Definition dispatch (m : model) : result :=
  match index (choices m) (cursor m) with
  | None => Panicked
  | Some sel =>
    let m := set_isProcessing (set_selected m sel) true in
    if (sel =? "Install Niri")%string then
      Returned (set_state m installView) (Some CmdInstallNiri)
    else if (sel =? "Setup System")%string then
      Returned (set_state m installView) (Some CmdSetupSystem)
    else if (sel =? "Configure Niri")%string then
      let m := set_actionMsg (set_state m actionView) "Configuring Niri..." in
      Returned m (Some CmdConfigureNiri)
    else if (sel =? "Validate Config")%string then
      let m := set_actionMsg (set_state m actionView)
                             "Validating Niri config..." in
      Returned m (Some CmdValidateNiriConfig)
    else if (sel =? "Save Logs")%string then
      let m := set_actionMsg (set_state m actionView) "Saving logs..." in
      Returned m (Some (CmdSaveLogsToFile m))
    else if (sel =? "Exit")%string then
      Returned m (Some Quit)
    else Returned m None
  end.

(** The [statusMsg] case. *)
Definition complete (m : model) (msg : statusMsg) : model :=
  let m := set_logs m (logs m ++ [status msg]) in
  let m := set_isProcessing m false in
  match err msg, state m with
  | None, installView => set_logs (set_state m menuView) []
  | None, actionView => set_actionMsg (set_state m menuView) (status msg)
  | _, _ => m
  end.

Definition Update (m : model) (msg : Msg) : result :=
  match msg with
  | KeyMsg key =>
    match state m with
    | menuView =>
      if (key =? "ctrl+c")%string || (key =? "q")%string then
        Returned m (Some Quit)
      else if (key =? "up")%string then
        Returned (if 0 <? cursor m
                  then set_cursor m (int_sub (cursor m) 1) else m) None
      else if (key =? "down")%string then
        Returned (if cursor m <? int_sub (len (choices m)) 1
                  then set_cursor m (int_add (cursor m) 1) else m) None
      else if (key =? "enter")%string then dispatch m
      else Returned m None
    | installView | actionView => Returned m None
    end
  | Status s => Returned (complete m s) None
  | OtherMsg => Returned m None
  end.

(** The framework's loop as far as [Update] is concerned: messages are
    handed to [Update] one at a time, and the program ends when [Update]
    returns [tea.Quit] (or panics). *)
Inductive loopEnd :=
  | Exited (m : model)
  | Waiting (m : model)
  | Crashed.

Fixpoint eventLoop (m : model) (msgs : list Msg) : loopEnd :=
  match msgs with
  | [] => Waiting m
  | msg :: rest =>
    match Update m msg with
    | Panicked => Crashed
    | Returned m' (Some Quit) => Exited m'
    | Returned m' _ => eventLoop m' rest
    end
  end.

(** * Strings and paths (Go's [strings], [sort] and [path/filepath]) *)

Definition nl : string := String "010"%char EmptyString.
Definition dquote : string := String "034"%char EmptyString.

(** [strings.Contains(s, substr)]. *)
Fixpoint Contains (s substr : string) : bool :=
  String.prefix substr s ||
  match s with
  | EmptyString => false
  | String _ s' => Contains s' substr
  end.

(** [strings.HasPrefix(s, prefix)]. *)
Definition HasPrefix (s prefix : string) : bool := String.prefix prefix s.

(** [strings.Join(elems, sep)]. *)
Definition Join (elems : list string) (sep : string) : string :=
  String.concat sep elems.

(** [sort.Strings]: increasing byte-wise lexicographic order. *)
Fixpoint insertString (x : string) (l : list string) : list string :=
  match l with
  | [] => [x]
  | y :: l' => if (x <=? y)%string then x :: l else y :: insertString x l'
  end.

Definition sort_Strings (l : list string) : list string :=
  foldr insertString [] l.

(** The elements of a path between its slashes. *)
Fixpoint splitSlash (s : string) : list string :=
  match s with
  | EmptyString => [EmptyString]
  | String c s' =>
    if Ascii.eqb c "/" then EmptyString :: splitSlash s'
    else match splitSlash s' with
         | [] => [String c EmptyString]
         | x :: xs => String c x :: xs
         end
  end.

(** [filepath.Clean], element by element; [out] is the stack of elements
    kept so far, innermost first. *)
Fixpoint cleanElems (rooted : bool) (out elems : list string) : list string :=
  match elems with
  | [] => out
  | e :: rest =>
    if (e =? "")%string || (e =? ".")%string then cleanElems rooted out rest
    else if (e =? "..")%string then
      match out with
      | top :: out' =>
        if (top =? "..")%string then cleanElems rooted (e :: out) rest
        else cleanElems rooted out' rest
      | [] =>
        if rooted then cleanElems rooted [] rest
        else cleanElems rooted [e] rest
      end
    else cleanElems rooted (e :: out) rest
  end.

Definition Clean (path : string) : string :=
  if (path =? "")%string then "."
  else
    let rooted := HasPrefix path "/" in
    let body := Join (rev (cleanElems rooted [] (splitSlash path))) "/" in
    let s := (if rooted then "/" else "") +:+ body in
    if (s =? "")%string then "." else s.

(** [filepath.Join(elem...)]. *)
Fixpoint filepath_Join (elem : list string) : string :=
  match elem with
  | [] => ""
  | e :: rest =>
    if (e =? "")%string then filepath_Join rest else Clean (Join elem "/")
  end.

(** [filepath.Dir(path)]: [Clean] of the path up to its last slash. *)
Definition filepath_Dir (path : string) : string :=
  match removelast (splitSlash path) with
  | [] => Clean ""
  | front => Clean (Join front "/" +:+ "/")
  end.

(** * The operating system *)

Inductive node :=
  | File (data : string) (uid : Z) (mode : Z)
  | Dir (uid : Z) (mode : Z).

(** One child process that has run: its command line and what it gave. *)
Record procEntry := ProcEntry {
  pe_argv : list string;
  pe_out : string;
  pe_err : option error
}.

(** The part of the machine the program can observe.  [nostat], [noread]
    and [nowrite] are the paths at which the kernel refuses, whatever the
    reason, a stat, an open for reading, and a creation or an open for
    writing. *)
Record OS := MkOS {
  euid : Z;
  env : gmap string string;
  exe : option string;
  cwd : string;
  umask : Z;
  nodes : gmap string node;
  nostat : gset string;
  noread : gset string;
  nowrite : gset string;
  history : list procEntry
}.

Definition set_env (os : OS) (e : gmap string string) : OS :=
  MkOS (euid os) e (exe os) (cwd os) (umask os) (nodes os) (nostat os)
       (noread os) (nowrite os) (history os).
Definition set_nodes (os : OS) (n : gmap string node) : OS :=
  MkOS (euid os) (env os) (exe os) (cwd os) (umask os) n (nostat os)
       (noread os) (nowrite os) (history os).
Definition set_history (os : OS) (h : list procEntry) : OS :=
  MkOS (euid os) (env os) (exe os) (cwd os) (umask os) (nodes os) (nostat os)
       (noread os) (nowrite os) h.

Inductive io (A : Type) :=
  | Ok (a : A)
  | Err (e : error).
Arguments Ok {A} a.
Arguments Err {A} e.

(** Permission bits of a created node: [perm &^ umask]. *)
Definition created_mode (os : OS) (perm : Z) : Z := Z.ldiff perm (umask os).

Definition Stat (name : string) (os : OS) : io node :=
  if decide (name ∈ nostat os) then Err (PathError "stat" name EACCES)
  else match nodes os !! name with
       | None => Err (PathError "stat" name ENOENT)
       | Some n => Ok n
       end.

Definition Mkdir (name : string) (perm : Z) (os : OS) : option error * OS :=
  if decide (name ∈ nowrite os) then (Some (PathError "mkdir" name EACCES), os)
  else match nodes os !! name with
       | Some _ => (Some (PathError "mkdir" name EEXIST), os)
       | None =>
         (None,
          set_nodes os (<[name := Dir (euid os) (created_mode os perm)]> (nodes os)))
       end.

(** The directories [MkdirAll] visits, outermost first: the prefixes of the
    path at its slashes. *)
Fixpoint prefixes (root : string) (elems : list string) : list string :=
  match elems with
  | [] => []
  | e :: rest =>
    if (e =? "")%string then prefixes root rest
    else let p := root +:+ e in p :: prefixes (p +:+ "/") rest
  end.

Definition ancestors (path : string) : list string :=
  prefixes (if HasPrefix path "/" then "/" else "") (splitSlash path).

Fixpoint mkdirEach (dirs : list string) (perm : Z) (os : OS) : option error * OS :=
  match dirs with
  | [] => (None, os)
  | d :: rest =>
    match nodes os !! d with
    | Some (Dir _ _) => mkdirEach rest perm os
    | Some (File _ _ _) => (Some (PathError "mkdir" d ENOTDIR), os)
    | None =>
      match Mkdir d perm os with
      | (Some e, os') => (Some e, os')
      | (None, os') => mkdirEach rest perm os'
      end
    end
  end.

Definition MkdirAll (path : string) (perm : Z) (os : OS) : option error * OS :=
  mkdirEach (ancestors path) perm os.

Definition ReadFile (name : string) (os : OS) : io string :=
  if decide (name ∈ noread os) then Err (PathError "open" name EACCES)
  else match nodes os !! name with
       | None => Err (PathError "open" name ENOENT)
       | Some (Dir _ _) => Err (PathError "read" name EISDIR)
       | Some (File data _ _) => Ok data
       end.

(** [os.WriteFile]: create or truncate, then write. *)
Definition WriteFile (name data : string) (perm : Z) (os : OS) : option error * OS :=
  if decide (name ∈ nowrite os) then (Some (PathError "open" name EACCES), os)
  else match nodes os !! name with
       | Some (Dir _ _) => (Some (PathError "open" name EISDIR), os)
       | Some (File _ uid mode) =>
         (None, set_nodes os (<[name := File data uid mode]> (nodes os)))
       | None =>
         (None,
          set_nodes os (<[name := File data (euid os) (created_mode os perm)]> (nodes os)))
       end.

(** [os.OpenFile(name, O_APPEND|O_CREATE|O_WRONLY, perm)]: the file exists
    once the call has succeeded. *)
Definition OpenFile_append (name : string) (perm : Z) (os : OS) : option error * OS :=
  if decide (name ∈ nowrite os) then (Some (PathError "open" name EACCES), os)
  else match nodes os !! name with
       | Some (Dir _ _) => (Some (PathError "open" name EISDIR), os)
       | Some (File _ _ _) => (None, os)
       | None =>
         (None,
          set_nodes os (<[name := File "" (euid os) (created_mode os perm)]> (nodes os)))
       end.

(** [f.WriteString(s)] on a file opened for appending. *)
Definition WriteString (name s : string) (os : OS) : OS :=
  match nodes os !! name with
  | Some (File data uid mode) =>
    set_nodes os (<[name := File (data +:+ s) uid mode]> (nodes os))
  | _ => os
  end.

(** [os.Open(name)], for its error only. *)
Definition Open (name : string) (os : OS) : option error :=
  if decide (name ∈ noread os) then Some (PathError "open" name EACCES)
  else match nodes os !! name with
       | None => Some (PathError "open" name ENOENT)
       | Some _ => None
       end.

(** The name a path has inside directory [dir], if it lies directly there. *)
Fixpoint stripPrefix (p s : string) : option string :=
  match p, s with
  | EmptyString, _ => Some s
  | String a p', String b s' => if Ascii.eqb a b then stripPrefix p' s' else None
  | String _ _, EmptyString => None
  end.

Definition childName (dir path : string) : option string :=
  match stripPrefix (dir +:+ "/") path with
  | Some name =>
    if (name =? "")%string || Contains name "/" then None else Some name
  | None => None
  end.

(** [os.ReadDir(name)]: the entry names, sorted by file name. *)
Definition ReadDir (name : string) (os : OS) : io (list string) :=
  if decide (name ∈ noread os) then Err (PathError "open" name EACCES)
  else match nodes os !! name with
       | None => Err (PathError "open" name ENOENT)
       | Some (File _ _ _) => Err (PathError "readdirent" name ENOTDIR)
       | Some (Dir _ _) =>
         Ok (sort_Strings (omap (childName name) (elements (dom (nodes os)))))
       end.

Definition Getenv (key : string) (os : OS) : string := default "" (env os !! key).

Definition Setenv (key value : string) (os : OS) : OS :=
  set_env os (<[key := value]> (env os)).

(** [os.UserHomeDir()] on a Unix system. *)
Definition UserHomeDir (os : OS) : string * option error :=
  let v := Getenv "HOME" os in
  if (v =? "")%string then ("", Some (ErrorString "$HOME is not defined"))
  else (v, None).

(** [os.Executable()]. *)
Definition Executable (os : OS) : string * option error :=
  match exe os with
  | Some p => (p, None)
  | None => ("", Some (ErrorString "cannot find executable path"))
  end.

(** ** Child processes and the state monad of the actions *)

Record procResult := ProcResult {
  p_out : string;                   (* combined stdout and stderr *)
  p_err : option error;             (* nil when the exit status is 0 *)
  p_nodes : gmap string node        (* the files as the child leaves them *)
}.

(** What lies outside the program: how a command line behaves on a given
    machine (the package manager, the service tools, the module loader), and
    Go's Unicode-aware [strings.TrimSpace]. *)
Class Platform := {
  sys : OS → list string → procResult;
  TrimSpace : string → string
}.

Definition M (A : Type) : Type := OS → A * OS.

Definition ret {A} (a : A) : M A := λ os, (a, os).

Definition bind {A B} (m : M A) (k : A → M B) : M B :=
  λ os, let (a, os') := m os in k a os'.

Notation "'do' x <- m ; k" := (bind m (λ x, k))
  (at level 10, x name, m at level 100, k at level 200).
Notation "'do' ' p <- m ; k" := (bind m (λ x, match x with p => k end))
  (at level 10, p pattern, m at level 100, k at level 200).

(** Lift an observation and an update of the machine. *)
Definition get {A} (f : OS → A) : M A := λ os, (f os, os).
Definition act {A} (f : OS → A * OS) : M A := f.
Definition modify (f : OS → OS) : M unit := λ os, (tt, f os).

(** [exec.Command(argv...).CombinedOutput()]. *)
Definition CombinedOutput `{Platform} (argv : list string) : M (string * option error) :=
  λ os,
    let r := sys os argv in
    ((p_out r, p_err r),
     set_history (set_nodes os (p_nodes r))
                 (history os ++ [ProcEntry argv (p_out r) (p_err r)])).

(** [exec.Command(argv...).Run()]. *)
Definition Run `{Platform} (argv : list string) : M (option error) :=
  do r <- CombinedOutput argv; ret (snd r).

(** * The setup actions *)

Definition isPackageInstalled `{Platform} (pkg : string) : M bool :=
  do e <- Run ["pkg"; "info"; pkg];
  ret (match e with None => true | Some _ => false end).

(** The loop of [findRenderDevice] over the directory entries. *)
Fixpoint renderNodesOf (entries : list string) : list string :=
  match entries with
  | [] => []
  | e :: rest =>
    if HasPrefix e "renderD"
    then filepath_Join ["/dev/dri"; e] :: renderNodesOf rest
    else renderNodesOf rest
  end.

Definition findRenderDevice (os : OS) : string :=
  match ReadDir "/dev/dri" os with
  | Err _ => ""
  | Ok entries =>
    let renderNodes := renderNodesOf entries in
    if len renderNodes =? 0 then ""
    else match sort_Strings renderNodes with
         | first :: _ => first
         | [] => ""
         end
  end.

Definition pkgs : list string :=
  ["drm-kmod"; "mesa-libs"; "mesa-dri"; "consolekit2"; "dbus"; "niri";
   "xwayland-satellite"; "seatd"; "waybar"; "grim"; "jq"; "wofi"; "alacritty";
   "pam_xdg"; "fuzzel"; "swaylock"; "foot"; "wlsunset"; "swaybg"; "mako";
   "swayidle"].

(** The body of the loop of [installNiri], over the packages still to do. *)
Fixpoint installEach `{Platform} (todo logs failed : list string)
  : M (list string * list string) :=
  match todo with
  | [] => ret (logs, failed)
  | pkg :: rest =>
    do installed <- isPackageInstalled pkg;
    if installed then
      installEach rest (logs ++ ["Already installed: " +:+ pkg]) failed
    else
      do ' (out, e) <- CombinedOutput ["sudo"; "pkg"; "install"; "-y"; pkg];
      match e with
      | Some _ =>
        let outStr := TrimSpace out in
        installEach rest
          (logs ++ ["Failed to install " +:+ pkg +:+ ": " +:+ outStr])
          (failed ++ [pkg])
      | None =>
        installEach rest (logs ++ ["Successfully installed " +:+ pkg]) failed
      end
  end.

(** The closing [if len(failed) > 0] of [installNiri]. *)
Definition installResult (logs failed : list string) : statusMsg :=
  if 0 <? len failed then
    let logs := logs ++ [nl +:+ "Failed packages (" +:+ pretty (len failed)
                           +:+ "): " +:+ Join failed ", "] in
    StatusMsg (Join logs nl)
              (Some (ErrorString (pretty (len failed)
                                    +:+ " packages failed to install")))
  else StatusMsg (Join logs nl) None.

Definition installNiri `{Platform} : M statusMsg :=
  do ' (logs, failed) <- installEach pkgs [] [];
  ret (installResult logs failed).

(** ** System setup *)

Definition serviceSteps : list (string * list string) :=
  [("Enabling dbus service", ["sudo"; "sysrc"; "dbus_enable=YES"]);
   ("Starting dbus service", ["sudo"; "service"; "dbus"; "start"]);
   ("Enabling seatd service", ["sudo"; "sysrc"; "seatd_enable=YES"]);
   ("Starting seatd service", ["sudo"; "service"; "seatd"; "start"])].

(** Step 1: the loop over [steps]. *)
Fixpoint runSteps `{Platform} (steps : list (string * list string))
    (logs : list string) : M (list string) :=
  match steps with
  | [] => ret logs
  | (desc, cmd) :: rest =>
    do ' (out, e) <- CombinedOutput cmd;
    match e with
    | Some _ =>
      if negb (Contains out "already running")
      then runSteps rest (logs ++ ["Warning: " +:+ desc +:+ ": " +:+ out])
      else runSteps rest (logs ++ [desc +:+ ": already running"])
    | None => runSteps rest (logs ++ [desc +:+ ": OK"])
    end
  end.

(** Step 2: add the user to the video group. *)
Definition addToVideoGroup `{Platform} (logs : list string) : M (list string) :=
  do user <- get (Getenv "USER");
  do currentUser <- (if (user =? "")%string then get (Getenv "LOGNAME")
                     else ret user);
  if negb (currentUser =? "")%string then
    do ' (out, e) <- CombinedOutput ["sudo"; "pw"; "groupmod"; "video"; "-m";
                                     currentUser];
    match e with
    | Some _ => ret (logs ++ ["Warning: Adding user to video group: " +:+ out])
    | None => ret (logs ++ ["Added user '" +:+ currentUser
                              +:+ "' to video group: OK"])
    end
  else ret (logs ++ ["Warning: Could not determine current user for group setup"]).

(** Step 3: load the DRM kernel module. *)
Definition loadDRM `{Platform} (logs : list string) : M (list string) :=
  do ' (out, e) <- CombinedOutput ["sudo"; "kldload"; "drm"];
  match e with
  | Some _ =>
    if Contains out "already loaded" || Contains out "module already loaded"
    then ret (logs ++ ["Loading DRM kernel module: already loaded"])
    else ret (logs ++ ["Warning: Loading DRM kernel module: " +:+ out])
  | None => ret (logs ++ ["Loading DRM kernel module: OK"])
  end.

(** Step 4: load it at boot. *)
Definition persistDRM `{Platform} (logs : list string) : M (list string) :=
  do ' (out, e) <- CombinedOutput ["sudo"; "sysrc"; "kld_list+=drm"];
  match e with
  | Some _ => ret (logs ++ ["Warning: Persisting DRM module to boot: " +:+ out])
  | None => ret (logs ++ ["Persisting DRM module to boot: OK"])
  end.

(** [os.ReadFile] as the program uses it: the bytes (none on error) and
    the error. *)
Definition readFile (name : string) (os : OS) : string * option error :=
  match ReadFile name os with
  | Ok data => (data, None)
  | Err e => ("", Some e)
  end.

(** Step 5: the [XDG_RUNTIME_DIR] line; returns the log and the profile
    text the next step looks at. *)
Definition profileXDG (profilePath xdgLine : string) (logs : list string)
  : M (list string * string) :=
  do ' (profileStr, e) <- get (readFile profilePath);
  if (match e with Some _ => true | None => false end)
     || negb (Contains profileStr "XDG_RUNTIME_DIR")
  then
    do e <- act (OpenFile_append profilePath 420);
    match e with
    | Some e =>
      ret (logs ++ ["Warning: Could not write to " +:+ profilePath +:+ ": "
                      +:+ error_text e], profileStr)
    | None =>
      do _ <- modify (WriteString profilePath
                (nl +:+ "# Set XDG_RUNTIME_DIR for Wayland compositors" +:+ nl));
      do _ <- modify (WriteString profilePath (xdgLine +:+ nl));
      let logs := logs ++ ["Added XDG_RUNTIME_DIR to " +:+ profilePath +:+ ": OK"] in
      do ' (profileStr, _) <- get (readFile profilePath);
      ret (logs, profileStr)
    end
  else ret (logs ++ ["XDG_RUNTIME_DIR already in .profile: OK"], profileStr).

(** Step 5b: the [LIBSEAT_BACKEND] line. *)
Definition profileLibseat (profilePath profileStr : string) (logs : list string)
  : M (list string) :=
  if negb (Contains profileStr "LIBSEAT_BACKEND") then
    do e <- act (OpenFile_append profilePath 420);
    match e with
    | Some e =>
      ret (logs ++ ["Warning: Could not write to " +:+ profilePath +:+ ": "
                      +:+ error_text e])
    | None =>
      do _ <- modify (WriteString profilePath
                        ("export LIBSEAT_BACKEND=consolekit2" +:+ nl));
      ret (logs ++ ["Added LIBSEAT_BACKEND=consolekit2 to .profile: OK"])
    end
  else ret (logs ++ ["LIBSEAT_BACKEND already in .profile: OK"]).

(** Steps 5 and 5b: the two export lines of the shell profile. *)
Definition profileStep (logs : list string) : M (list string) :=
  do ' (homeDir, _) <- get UserHomeDir;
  let profilePath := filepath_Join [homeDir; ".profile"] in
  do uid <- get euid;
  let xdgLine := "export XDG_RUNTIME_DIR=/tmp/" +:+ pretty uid +:+ "-runtime-dir" in
  do ' (logs, profileStr) <- profileXDG profilePath xdgLine logs;
  profileLibseat profilePath profileStr logs.

(** Step 6: is the render device there and can it be opened? *)
Definition verifyRenderDevice (logs : list string) : M (list string) :=
  do renderDev <- get findRenderDevice;
  if negb (renderDev =? "")%string then
    let logs := logs ++ ["Found DRM render device: " +:+ renderDev] in
    do e <- get (Open renderDev);
    match e with
    | Some e =>
      ret (logs ++ ["Warning: Cannot access " +:+ renderDev +:+ ": "
                      +:+ error_text e +:+ " (check video group membership)"])
    | None =>
      ret (logs ++ ["DRM render device " +:+ renderDev +:+ " is accessible: OK"])
    end
  else
    ret (logs ++ ["Warning: No DRM render device found in /dev/dri/";
                  "  GPU drivers may not be loaded. Check that drm and your GPU kernel module are loaded."]).

Definition setupClosing : list string :=
  [""; "System setup complete. You may need to log out and back in for group changes to take effect.";
   ""; "To start niri, switch to a TTY (Ctrl+Alt+F2) and run:";
   "  LIBSEAT_BACKEND=consolekit2 ck-launch-session dbus-launch niri --session"].

(** The log entries of [setupSystem], before they are joined. *)
Definition setupLogs `{Platform} : M (list string) :=
  do logs <- runSteps serviceSteps [];
  do logs <- addToVideoGroup logs;
  do logs <- loadDRM logs;
  do logs <- persistDRM logs;
  do logs <- profileStep logs;
  do logs <- verifyRenderDevice logs;
  ret (logs ++ setupClosing).

Definition setupSystem `{Platform} : M statusMsg :=
  do logs <- setupLogs;
  ret (StatusMsg (Join logs nl) None).

(** ** Configuration *)

(** [_, err := os.Stat(name)]. *)
Definition statErr (name : string) (os : OS) : option error :=
  match Stat name os with
  | Ok _ => None
  | Err e => Some e
  end.

Definition debugBlock (renderDev : string) : string :=
  nl +:+ "// Explicitly set the DRM render device for EGL display creation."
     +:+ nl +:+ "debug {" +:+ nl +:+ "    render-drm-device " +:+ dquote
     +:+ renderDev +:+ dquote +:+ nl +:+ "}" +:+ nl.

Definition startHint : string :=
  nl +:+ nl +:+ "To start niri, switch to a TTY (Ctrl+Alt+F2) and run:"
     +:+ nl +:+ "  LIBSEAT_BACKEND=consolekit2 ck-launch-session dbus-launch niri --session".

Definition configureNiri : M statusMsg :=
  do ' (homeDir, e) <- get UserHomeDir;
  match e with
  | Some e => ret (StatusMsg "Failed to determine home directory" (Some e))
  | None =>
    let niriConfigDir := filepath_Join [homeDir; ".config"; "niri"] in
    do e <- act (MkdirAll niriConfigDir 493);
    match e with
    | Some e =>
      ret (StatusMsg ("Failed to create config directory: " +:+ error_text e) (Some e))
    | None =>
      do ' (exePath, e) <- get Executable;
      match e with
      | Some e => ret (StatusMsg "Failed to determine executable path" (Some e))
      | None =>
        let srcConfig := filepath_Join [filepath_Dir exePath; "config.kdl"] in
        do e <- get (statErr srcConfig);
        do srcConfig <- (if IsNotExist e then
                           do cwd <- get cwd; ret (filepath_Join [cwd; "config.kdl"])
                         else ret srcConfig);
        do e <- get (statErr srcConfig);
        if IsNotExist e then
          ret (StatusMsg "config.kdl not found next to executable or in current directory" e)
        else
          do ' (srcData, e) <- get (readFile srcConfig);
          match e with
          | Some e =>
            ret (StatusMsg ("Failed to read source config: " +:+ error_text e) (Some e))
          | None =>
            let configStr := srcData in
            do renderDev <- get findRenderDevice;
            let configStr :=
              if negb (renderDev =? "")%string
                 && negb (Contains configStr "render-drm-device")
              then configStr +:+ debugBlock renderDev else configStr in
            let destConfig := filepath_Join [niriConfigDir; "config.kdl"] in
            do e <- act (WriteFile destConfig configStr 420);
            match e with
            | Some e =>
              ret (StatusMsg ("Failed to write config: " +:+ error_text e) (Some e))
            | None =>
              let msg := "Niri configuration copied to " +:+ destConfig in
              let msg := if negb (renderDev =? "")%string
                         then msg +:+ nl +:+ "DRM render device set to: " +:+ renderDev
                         else msg in
              ret (StatusMsg (msg +:+ startHint) None)
            end
          end
      end
    end
  end.

(** * Environment bootstrap *)

(** [uint32(x)] of an [int]. *)
Definition uint32 (x : Z) : Z := x mod 2 ^ 32.

(** [setupEnvironment] returns, or ends the process through [log.Fatalf]
    with a diagnostic. *)
Inductive boot :=
  | Booted (os : OS)
  | Fatal (diagnostic : string) (os : OS).

Definition node_uid (n : node) : Z :=
  match n with
  | File _ uid _ => uid
  | Dir uid _ => uid
  end.

Definition runtimeDirOf (userID : Z) : string :=
  "/tmp/" +:+ pretty userID +:+ "-runtime-dir".

Definition setupEnvironment (os : OS) : boot :=
  let userID := euid os in
  let runtimeDir := runtimeDirOf userID in
  let os := Setenv "XDG_RUNTIME_DIR" runtimeDir os in
  if IsNotExist (statErr runtimeDir os) then
    match Mkdir runtimeDir 448 os with
    | (Some e, os) =>
      Fatal ("Failed to create runtime directory: " +:+ error_text e) os
    | (None, os) => Booted os
    end
  else
    match Stat runtimeDir os with
    | Err e => Fatal ("Failed to stat runtime directory: " +:+ error_text e) os
    | Ok info =>
      (* on a Unix system [info.Sys()] always is a [*syscall.Stat_t] *)
      let statUid := node_uid info in
      if negb (statUid =? uint32 userID) then
        Fatal ("XDG_RUNTIME_DIR '" +:+ runtimeDir +:+ "' is owned by UID "
                 +:+ pretty statUid +:+ ", not our UID " +:+ pretty userID) os
      else Booted os
    end.

(** * The remaining actions and the older install loop *)

(** [os.TempDir()] on a Unix system. *)
Definition TempDir (os : OS) : string :=
  let dir := Getenv "TMPDIR" os in
  if (dir =? "")%string then "/tmp" else dir.

(** [file.WriteString(s)] with its error.  On this model of the machine a
    write to a file that has been opened does not fail; the error is the one
    of a file that is no longer there. *)
Definition fileWriteString (name s : string) (os : OS) : option error * OS :=
  match nodes os !! name with
  | Some (File _ _ _) => (None, WriteString name s os)
  | _ => (Some (PathError "write" name ENOENT), os)
  end.

(** The loop of [saveLogsToFile]: [Some msg] is its early return. *)
Fixpoint writeLogs (logFile : string) (entries : list string)
  : M (option statusMsg) :=
  match entries with
  | [] => ret None
  | log :: rest =>
    do e <- act (fileWriteString logFile (log +:+ nl));
    match e with
    | Some e => ret (Some (StatusMsg "Failed to write to log file" (Some e)))
    | None => writeLogs logFile rest
    end
  end.

Definition saveLogsToFile (m : model) : M statusMsg :=
  do tmp <- get TempDir;
  let logFile := filepath_Join [tmp; "nirisetup.log"] in
  do e <- act (OpenFile_append logFile 420);
  match e with
  | Some e => ret (StatusMsg "Failed to open log file for writing" (Some e))
  | None =>
    do early <- writeLogs logFile (logs m);
    match early with
    | Some msg => ret msg
    | None => ret (StatusMsg ("Logs saved to " +:+ logFile) None)
    end
  end.

(** The commands a run of the framework's loop hands out, in order; the run
    ends with [tea.Quit] or a panic as [eventLoop] does. *)
Fixpoint issued (m : model) (msgs : list Msg) : list Cmd :=
  match msgs with
  | [] => []
  | msg :: rest =>
    match Update m msg with
    | Panicked => []
    | Returned m' None => issued m' rest
    | Returned m' (Some Quit) => [Quit]
    | Returned m' (Some c) => c :: issued m' rest
    end
  end.

(** The install action of the two older variants of the program: no
    presence check, and the first failed install ends the loop.  [errorf] is
    [fmt.Errorf] applied to a format string without operands; the pause
    after each install has no counterpart here. *)
Definition pkgsOld : list string :=
  ["niri"; "wlroots019"; "xwayland-satellite"; "seatd"; "waybar"; "grim"; "jq";
   "wofi"; "alacritty"; "pam_xdg"; "fuzzel"; "swaylock"; "foot"; "wlsunset";
   "swaybg"; "mako"; "swayidle"].

Fixpoint installEachOld `{Platform} (errorf : string → string)
    (todo logs : list string) : M statusMsg :=
  match todo with
  | [] => ret (StatusMsg (Join logs nl) None)
  | pkg :: rest =>
    do ' (out, e) <- CombinedOutput ["sudo"; "pkg"; "install"; "-y"; pkg];
    match e with
    | Some _ =>
      ret (StatusMsg ("Failed to install " +:+ pkg)
                     (Some (ErrorString (errorf out))))
    | None =>
      installEachOld errorf rest (logs ++ ["Successfully installed " +:+ pkg])
    end
  end.

Definition installNiriOld `{Platform} (errorf : string → string) : M statusMsg :=
  installEachOld errorf pkgsOld [].

(** * Vocabulary of the statements *)

(** The cursor points at a menu entry. *)
Definition cursor_inv (m : model) : Prop :=
  0 <= cursor m <= len (choices m) - 1.

(** An action is under way. *)
Definition busy (m : model) : Prop :=
  state m = installView ∨ state m = actionView.

(** The two command lines of the install action. *)
Definition infoCmd (pkg : string) : list string := ["pkg"; "info"; pkg].
Definition installCmd (pkg : string) : list string :=
  ["sudo"; "pkg"; "install"; "-y"; pkg].

(** A failed run of the install command of [pkg]. *)
Definition failedInstall (pkg : string) (entry : procEntry) : Prop :=
  pe_argv entry = installCmd pkg ∧ is_Some (pe_err entry).

(** [installTrace todo h lines failed]: the child processes [h], the log
    entries [lines] and the failed packages [failed] that one pass over the
    packages [todo] can leave behind. *)
Inductive installTrace `{Platform}
  : list string → list procEntry → list string → list string → Prop :=
  | trace_done : installTrace [] [] [] []
  | trace_present pkg out todo h lines failed :
      installTrace todo h lines failed →
      installTrace (pkg :: todo)
                   (ProcEntry (infoCmd pkg) out None :: h)
                   (("Already installed: " +:+ pkg) :: lines)
                   failed
  | trace_installed pkg out1 e1 out2 todo h lines failed :
      installTrace todo h lines failed →
      installTrace (pkg :: todo)
                   (ProcEntry (infoCmd pkg) out1 (Some e1)
                      :: ProcEntry (installCmd pkg) out2 None :: h)
                   (("Successfully installed " +:+ pkg) :: lines)
                   failed
  | trace_failed pkg out1 e1 out2 e2 todo h lines failed :
      installTrace todo h lines failed →
      installTrace (pkg :: todo)
                   (ProcEntry (infoCmd pkg) out1 (Some e1)
                      :: ProcEntry (installCmd pkg) out2 (Some e2) :: h)
                   (("Failed to install " +:+ pkg +:+ ": " +:+ TrimSpace out2) :: lines)
                   (pkg :: failed).

(** The closing entry of the install log. *)
Definition failureSummary (failed : list string) : list string :=
  match failed with
  | [] => []
  | _ => [nl +:+ "Failed packages (" +:+ pretty (len failed) +:+ "): "
             +:+ Join failed ", "]
  end.

(** The shell profile [setupSystem] edits. *)
Definition profilePathOf (os : OS) : string :=
  filepath_Join [(UserHomeDir os).1; ".profile"].

(** Nothing is left for the profile step to do at [p]: the file cannot be
    opened for appending, or it has both variables in it. *)
Definition settled (p : string) (os : OS) : Prop :=
  p ∈ nowrite os
  ∨ (∃ uid mode, nodes os !! p = Some (Dir uid mode))
  ∨ (∃ data uid mode, nodes os !! p = Some (File data uid mode)
       ∧ Contains data "XDG_RUNTIME_DIR" = true
       ∧ Contains data "LIBSEAT_BACKEND" = true).

(** What step 5 leaves for step 5b at [p]: the text [str] it has read and
    the files [n]. *)
Definition xdgDone (p : string) (os : OS) (str : string)
    (n : gmap string node) : Prop :=
  p ∈ nowrite os
  ∨ (∃ uid mode, n !! p = Some (Dir uid mode))
  ∨ (∃ uid mode, n !! p = Some (File str uid mode)
       ∧ Contains str "XDG_RUNTIME_DIR" = true).

(** A log entry that reports a step as failed. *)
Definition isWarning (line : string) : Prop := HasPrefix line "Warning: " = true.

(** The command of [entry] failed, and its output has none of the
    substrings [benign]. *)
Definition hardFailure (benign : list string) (entry : procEntry) : Prop :=
  is_Some (pe_err entry) ∧ ∀ b, b ∈ benign → Contains (pe_out entry) b = false.

(** The step that runs [cmd] has run as [entry] and is logged as [line]. *)
Definition stepLogged (benign cmd : list string) (entry : procEntry)
    (line : string) : Prop :=
  pe_argv entry = cmd ∧ (isWarning line ↔ hardFailure benign entry).

(** The user [setupSystem] adds to the video group. *)
Definition currentUserOf (os : OS) : string :=
  if (Getenv "USER" os =? "")%string then Getenv "LOGNAME" os
  else Getenv "USER" os.

(** The file [saveLogsToFile] appends to, and the text it appends. *)
Definition logFileOf (os : OS) : string :=
  filepath_Join [TempDir os; "nirisetup.log"].

Fixpoint logBlock (entries : list string) : string :=
  match entries with
  | [] => ""
  | log :: rest => (log +:+ nl) +:+ logBlock rest
  end.

(** From the files [n] to the files [n'] nothing but appending to [p], or
    creating it, has happened. *)
Definition appendedAt (p : string) (os : OS) (n n' : gmap string node) : Prop :=
  (∀ q, q ≠ p → n' !! q = n !! q)
  ∧ match n !! p with
    | Some (File data uid mode) =>
      ∃ suffix, n' !! p = Some (File (data +:+ suffix) uid mode)
    | Some (Dir uid mode) => n' !! p = Some (Dir uid mode)
    | None =>
      n' !! p = None
      ∨ ∃ data, n' !! p = Some (File data (euid os) (created_mode os 420))
    end.

(** The template beside the executable, and the one in the working
    directory. *)
Definition besideExe (exePath : string) : string :=
  filepath_Join [filepath_Dir exePath; "config.kdl"].
Definition inCwd (os : OS) : string := filepath_Join [cwd os; "config.kdl"].

(** * Sample machines *)

(** The model after [enter] on the first menu entry. *)
Definition installingModel : model :=
  Model installView (choices initialModel) 0 "Install Niri" [] true "" "".

(** A machine of user 1001 with two render nodes, a template beside the
    executable and an older configuration in place. *)
Definition sampleOS : OS :=
  MkOS 1001 {[ "HOME" := "/home/u"; "USER" := "u" ]}
       (Some "/opt/niri/NiriSetup") "/home/u" 18
       {[ "/opt/niri/config.kdl" := File "layout {}" 0 420;
          "/dev/dri" := Dir 0 493;
          "/dev/dri/renderD129" := File "" 0 432;
          "/dev/dri/renderD128" := File "" 0 432;
          "/dev/dri/card0" := File "" 0 432;
          "/home/u/.config/niri/config.kdl" := File "old" 1001 420 ]}
       ∅ ∅ ∅ [].

(** A machine of the same user whose profile may be appended to but not
    read (mode 0200). *)
Definition writeOnlyProfileOS : OS :=
  MkOS 1001 {[ "HOME" := "/home/u"; "USER" := "u" ]}
       (Some "/opt/niri/NiriSetup") "/home/u" 18
       {[ "/home/u/.profile" := File "" 1001 128 ]}
       ∅ {[ "/home/u/.profile" ]} ∅ [].

(** A machine on which every command fails with the output [boom]. *)
Definition refusingPlatform : Platform :=
  {| sys := λ os argv, ProcResult "boom" (Some (ExitError 1)) (nodes os);
     TrimSpace := λ s, s |}.

(** A machine on which every package is installed already and every other
    command succeeds. *)
Definition allPresentPlatform : Platform :=
  {| sys := λ os argv, ProcResult "" None (nodes os);
     TrimSpace := λ s, s |}.

(** The sample machine with a log file that cannot be opened for writing. *)
Definition lockedTmpOS : OS :=
  MkOS 1001 {[ "HOME" := "/home/u"; "USER" := "u" ]}
       (Some "/opt/niri/NiriSetup") "/home/u" 18
       {[ "/tmp/nirisetup.log" := File "kept" 0 420 ]}
       ∅ ∅ {[ "/tmp/nirisetup.log" ]} [].

(** The menu with the cursor on [Save Logs] and two entries in the buffer. *)
Definition menuOnSaveLogs : model :=
  Model menuView (choices initialModel) 4 "" ["first"; "second"] false "" "".

(** * Proofs *)

(** ** The menu / state UI *)

Lemma int_wrap_small z : int_min <= z <= int_max → int_wrap z = z.
Proof.
  unfold int_min, int_max, int_wrap. intros Hz.
  rewrite Z.mod_small; lia.
Qed.

Lemma set_cursor_same m : set_cursor m (cursor m) = m.
Proof. by destruct m. Qed.

Lemma index_in_range {A} (l : list A) i :
  0 <= i <= len l - 1 → is_Some (index l i).
Proof.
  unfold index, len. intros Hi.
  destruct (Z.ltb_spec i 0) as [|_]; [lia|].
  apply lookup_lt_is_Some. lia.
Qed.

Lemma key_up m :
  state m = menuView → cursor_inv m → len (choices m) <= int_max →
  Update m (KeyMsg "up") = Returned (set_cursor m (Z.max 0 (cursor m - 1))) None.
Proof.
  unfold cursor_inv, Update. intros -> Hinv Hlen. simpl.
  destruct (Z.ltb_spec 0 (cursor m)) as [Hpos|Hzero].
  - unfold int_sub. rewrite int_wrap_small by (unfold int_min; lia).
    by rewrite Z.max_r by lia.
  - rewrite Z.max_l by lia.
    assert (Hc : cursor m = 0) by lia.
    rewrite <- (set_cursor_same m) at 1. by rewrite Hc.
Qed.

Lemma key_down m :
  state m = menuView → cursor_inv m → len (choices m) <= int_max →
  Update m (KeyMsg "down")
  = Returned (set_cursor m (Z.min (len (choices m) - 1) (cursor m + 1))) None.
Proof.
  unfold cursor_inv, Update. intros -> Hinv Hlen. simpl.
  unfold int_sub, int_add.
  rewrite (int_wrap_small (len (choices m) - 1)) by (unfold int_min; lia).
  destruct (Z.ltb_spec (cursor m) (len (choices m) - 1)) as [Hlt|Hge].
  - rewrite int_wrap_small by (unfold int_min; lia).
    by rewrite Z.min_r by lia.
  - rewrite Z.min_l by lia.
    assert (Hc : cursor m = len (choices m) - 1) by lia.
    rewrite <- (set_cursor_same m) at 1. by rewrite Hc.
Qed.

Lemma dispatch_keeps_cursor m :
  cursor_inv m →
  ∃ m' c, dispatch m = Returned m' c
          ∧ cursor m' = cursor m ∧ choices m' = choices m.
Proof.
  intros Hinv. unfold dispatch.
  destruct (index_in_range (choices m) (cursor m) Hinv) as [sel ->].
  repeat (case_match; [by eexists _, _|]). by eexists _, _.
Qed.

Lemma complete_keeps_cursor m msg :
  cursor (complete m msg) = cursor m ∧ choices (complete m msg) = choices m.
Proof.
  unfold complete. simpl. by destruct (err msg), (state m).
Qed.

Lemma Update_preserves_inv m msg :
  len (choices m) <= int_max → cursor_inv m →
  ∃ m' c, Update m msg = Returned m' c
          ∧ cursor_inv m' ∧ choices m' = choices m.
Proof.
  intros Hlen Hinv. destruct msg as [key|s|].
  - destruct (state m) eqn:Hst;
      [|by (unfold Update; rewrite Hst; eexists _, _)..].
    destruct (String.eqb_spec key "up") as [->|Hup].
    { rewrite key_up by done. eexists _, _. split; [done|].
      unfold cursor_inv in *. simpl. split; [lia|done]. }
    destruct (String.eqb_spec key "down") as [->|Hdown].
    { rewrite key_down by done. eexists _, _. split; [done|].
      unfold cursor_inv in *. simpl. split; [lia|done]. }
    unfold Update. rewrite Hst.
    destruct (_ || _); [by eexists _, _|].
    destruct (String.eqb_spec key "up") as [|_]; [done|].
    destruct (String.eqb_spec key "down") as [|_]; [done|].
    destruct (key =? "enter")%string; [|by eexists _, _].
    destruct (dispatch_keeps_cursor m Hinv) as (m' & c & -> & Hc & Hch).
    eexists _, _. split; [done|]. unfold cursor_inv. by rewrite Hc, Hch.
  - simpl. eexists _, _. split; [done|].
    destruct (complete_keeps_cursor m s) as [Hc Hch].
    unfold cursor_inv. by rewrite Hc, Hch.
  - by eexists _, _.
Qed.

Lemma eventLoop_preserves_inv msgs : ∀ m,
  len (choices m) <= int_max → cursor_inv m →
  match eventLoop m msgs with
  | Exited m' | Waiting m' => cursor_inv m'
  | Crashed => False
  end.
Proof.
  induction msgs as [|msg rest IH]; intros m Hlen Hinv; [done|].
  cbn [eventLoop].
  destruct (Update_preserves_inv m msg Hlen Hinv) as (m' & c & -> & Hinv' & Hch).
  destruct c as [[]|]; try done; apply IH; try done; by rewrite Hch.
Qed.

(** C8: in the menu the up key moves the cursor one place towards 0 and
    stops there, the down key one place towards the last entry and stops
    there; no message makes [Update] panic or takes the cursor out of
    [0 .. len(choices)-1], whatever the sequence of messages. *)
Theorem cursor_saturates (m : model)
    (Hlen : len (choices m) <= int_max) (Hinv : cursor_inv m) :
  (state m = menuView →
     Update m (KeyMsg "up")
     = Returned (set_cursor m (Z.max 0 (cursor m - 1))) None
     ∧ Update m (KeyMsg "down")
       = Returned (set_cursor m (Z.min (len (choices m) - 1) (cursor m + 1))) None)
  ∧ (∀ msg, ∃ m' c, Update m msg = Returned m' c
                    ∧ cursor_inv m' ∧ choices m' = choices m)
  ∧ (∀ msgs, match eventLoop m msgs with
             | Exited m' | Waiting m' => cursor_inv m'
             | Crashed => False
             end).
Proof.
  split; [|split].
  - intros Hst. split; [by apply key_up | by apply key_down].
  - intros msg. by apply Update_preserves_inv.
  - intros msgs. by apply eventLoop_preserves_inv.
Qed.

Lemma cursor_saturates_witness :
  len (choices initialModel) <= int_max ∧ cursor_inv initialModel
  ∧ (∀ msgs, match eventLoop initialModel msgs with
             | Exited m' | Waiting m' => cursor_inv m'
             | Crashed => False
             end).
Proof.
  assert (Hlen : len (choices initialModel) <= int_max)
    by (vm_compute; discriminate).
  assert (Hinv : cursor_inv initialModel) by (vm_compute; split; discriminate).
  split; [exact Hlen|]. split; [exact Hinv|].
  apply (cursor_saturates initialModel Hlen Hinv).
Defined.

Lemma busy_key m key : busy m → Update m (KeyMsg key) = Returned m None.
Proof. unfold Update. by intros [-> | ->]. Qed.

(** C9: while the installing or the action view is shown, a key message
    leaves the whole model, so also [cursor], [selected] and [state], as it
    is, and no command is issued. *)
Theorem busy_ignores_keys (m : model) (key : string) (Hbusy : busy m) :
  Update m (KeyMsg key) = Returned m None.
Proof. by apply busy_key. Qed.

Lemma busy_ignores_keys_witness :
  busy installingModel
  ∧ Update installingModel (KeyMsg "ctrl+c") = Returned installingModel None.
Proof.
  assert (Hbusy : busy installingModel) by (by left).
  split; [exact Hbusy|].
  exact (busy_ignores_keys installingModel "ctrl+c" Hbusy).
Defined.

Lemma complete_failure_state m s e :
  state (complete m (StatusMsg s (Some e))) = state m.
Proof. done. Qed.

Lemma eventLoop_busy_keys keys : ∀ m,
  busy m → eventLoop m (map KeyMsg keys) = Waiting m.
Proof.
  induction keys as [|key rest IH]; intros m Hbusy; [done|].
  cbn [map eventLoop]. rewrite busy_key by done. by apply IH.
Qed.

(** C10: a completion message that carries an error, received in the
    installing or the action view, leaves the UI in that view; from then on
    every key, [q] and [ctrl+c] included, returns the same model and no
    command, so no sequence of keys reaches the menu, dispatches an action
    or ends the program. *)
Theorem failed_result_strands_ui (m : model) (s : string) (e : error)
    (Hbusy : busy m) :
  let m1 := complete m (StatusMsg s (Some e)) in
  Update m (Status (StatusMsg s (Some e))) = Returned m1 None
  ∧ state m1 = state m
  ∧ state m1 ≠ menuView
  ∧ (∀ key, Update m1 (KeyMsg key) = Returned m1 None)
  ∧ (∀ keys, eventLoop m1 (map KeyMsg keys) = Waiting m1).
Proof.
  intros m1.
  assert (Hst : state m1 = state m) by apply complete_failure_state.
  assert (Hbusy1 : busy m1) by (unfold busy; by rewrite Hst).
  split; [done|]. split; [done|]. split.
  { rewrite Hst. by destruct Hbusy as [-> | ->]. }
  split; intros; [by apply busy_key | by apply eventLoop_busy_keys].
Qed.

Lemma failed_result_strands_ui_witness :
  busy installingModel
  ∧ (∀ keys,
       eventLoop (complete installingModel (StatusMsg "boom" (Some (ExitError 1))))
                 (map KeyMsg keys)
       = Waiting (complete installingModel (StatusMsg "boom" (Some (ExitError 1))))).
Proof.
  assert (Hbusy : busy installingModel) by (by left).
  split; [exact Hbusy|].
  apply (failed_result_strands_ui installingModel "boom" (ExitError 1) Hbusy).
Defined.

(** What [Update] does with a completion message that carries no error: the
    menu comes back, and the log buffer is emptied after the installing view
    and kept, with the new entry, after the action view. *)
Lemma success_returns_to_menu m s :
  busy m →
  let m1 := complete m (StatusMsg s None) in
  Update m (Status (StatusMsg s None)) = Returned m1 None
  ∧ state m1 = menuView
  ∧ (state m = installView → logs m1 = [])
  ∧ (state m = actionView → logs m1 = logs m ++ [s]).
Proof.
  intros Hbusy m1. split; [done|]. subst m1. unfold complete. simpl.
  destruct Hbusy as [Hst | Hst]; rewrite Hst; simpl;
    (split; [done|]); split; intros; done.
Qed.

(** C3: the first menu entry is chosen and its action then reports a
    failure: the UI stays in the installing view. *)
Theorem failed_install_stays_busy :
  let failure := StatusMsg "Failed to install niri: boom"
                           (Some (ErrorString "1 packages failed to install")) in
  Update initialModel (KeyMsg "enter")
  = Returned installingModel (Some CmdInstallNiri)
  ∧ ∃ m2, Update installingModel (Status failure) = Returned m2 None
          ∧ state m2 = installView
          ∧ logs m2 = ["Failed to install niri: boom"]
          ∧ eventLoop m2 [KeyMsg "q"; KeyMsg "ctrl+c"; KeyMsg "enter"] = Waiting m2.
Proof.
  simpl. split; [done|]. eexists. repeat split.
Qed.

(** ** Environment bootstrap *)

Lemma prefix_empty s : String.prefix "" s = true.
Proof. by destruct s. Qed.

Lemma owner_only_mode os : Z.land (created_mode os 448) 63 = 0.
Proof.
  unfold created_mode.
  rewrite Z.ldiff_land, <- Z.land_assoc, (Z.land_comm (Z.lnot _)), Z.land_assoc.
  done.
Qed.

Lemma uint32_small x : 0 <= x < 2 ^ 32 → uint32 x = x.
Proof. intros Hx. unfold uint32. by apply Z.mod_small. Qed.

Section Bootstrap.
Variable os : OS.
Hypothesis Heuid : 0 <= euid os < 2 ^ 32.

Local Abbreviation dir := (runtimeDirOf (euid os)).
Local Abbreviation os1 := (Setenv "XDG_RUNTIME_DIR" (runtimeDirOf (euid os)) os).

Ltac run_bootstrap :=
  unfold setupEnvironment, statErr, Stat, Mkdir;
  cbn [nostat nowrite nodes euid umask Setenv set_env];
  repeat first
    [ rewrite decide_True by done
    | rewrite decide_False by done
    | match goal with H : nodes os !! _ = _ |- _ => rewrite H end
    | progress cbn [IsNotExist nostat nowrite nodes euid umask node_uid] ].

Lemma bootstrap_creates :
  nodes os !! dir = None → dir ∉ nostat os → dir ∉ nowrite os →
  setupEnvironment os
  = Booted (set_nodes os1 (<[dir := Dir (euid os) (created_mode os 448)]> (nodes os))).
Proof. intros Hnone Hstat Hwrite. by run_bootstrap. Qed.

Lemma bootstrap_create_fails :
  nodes os !! dir = None → dir ∉ nostat os → dir ∈ nowrite os →
  setupEnvironment os
  = Fatal ("Failed to create runtime directory: "
             +:+ error_text (PathError "mkdir" dir EACCES)) os1.
Proof. intros Hnone Hstat Hwrite. by run_bootstrap. Qed.

Lemma bootstrap_stat_fails :
  dir ∈ nostat os →
  setupEnvironment os
  = Fatal ("Failed to stat runtime directory: "
             +:+ error_text (PathError "stat" dir EACCES)) os1.
Proof. intros Hstat. by run_bootstrap. Qed.

Lemma bootstrap_foreign_owner n :
  nodes os !! dir = Some n → dir ∉ nostat os → node_uid n ≠ euid os →
  setupEnvironment os
  = Fatal ("XDG_RUNTIME_DIR '" +:+ dir +:+ "' is owned by UID "
             +:+ pretty (node_uid n) +:+ ", not our UID " +:+ pretty (euid os)) os1.
Proof.
  intros Hsome Hstat Huid. run_bootstrap. rewrite uint32_small by done.
  by destruct (Z.eqb_spec (node_uid n) (euid os)).
Qed.

Lemma bootstrap_own n :
  nodes os !! dir = Some n → dir ∉ nostat os → node_uid n = euid os →
  setupEnvironment os = Booted os1.
Proof.
  intros Hsome Hstat Huid. run_bootstrap. rewrite uint32_small by done.
  by destruct (Z.eqb_spec (node_uid n) (euid os)).
Qed.
End Bootstrap.

(** C2: with [dir] the path [/tmp/{euid}-runtime-dir]: when nothing is at
    [dir] and the creation is not refused, the bootstrap succeeds and the one
    change to the files is the new directory [dir], owned by the user and
    created with permissions 0700 (after the umask, so with no bit for group
    or others); when something is at [dir] whose owner is not the effective
    UID, the process ends fatally, with a diagnostic that names both UIDs,
    and the files are as before; a refused stat and a refused creation are
    fatal too, the files being as before. *)
Theorem runtime_dir_bootstrap (os : OS) (Heuid : 0 <= euid os < 2 ^ 32) :
  let dir := runtimeDirOf (euid os) in
  (nodes os !! dir = None → dir ∉ nostat os → dir ∉ nowrite os →
     ∃ os', setupEnvironment os = Booted os'
       ∧ nodes os' = <[dir := Dir (euid os) (Z.ldiff 448 (umask os))]> (nodes os)
       ∧ Z.land (Z.ldiff 448 (umask os)) 63 = 0
       ∧ (Z.land (umask os) 448 = 0 → Z.ldiff 448 (umask os) = 448))
  ∧ (∀ n, nodes os !! dir = Some n → dir ∉ nostat os → node_uid n ≠ euid os →
       ∃ os', setupEnvironment os
              = Fatal ("XDG_RUNTIME_DIR '" +:+ dir +:+ "' is owned by UID "
                         +:+ pretty (node_uid n) +:+ ", not our UID "
                         +:+ pretty (euid os)) os'
         ∧ nodes os' = nodes os)
  ∧ (dir ∈ nostat os →
       ∃ diagnostic os', setupEnvironment os = Fatal diagnostic os'
         ∧ HasPrefix diagnostic "Failed to stat runtime directory: " = true
         ∧ nodes os' = nodes os)
  ∧ (nodes os !! dir = None → dir ∉ nostat os → dir ∈ nowrite os →
       ∃ diagnostic os', setupEnvironment os = Fatal diagnostic os'
         ∧ HasPrefix diagnostic "Failed to create runtime directory: " = true
         ∧ nodes os' = nodes os).
Proof.
  intros dir. split; [|split; [|split]].
  - intros Hnone Hstat Hwrite. eexists. split; [by apply bootstrap_creates|].
    split; [done|]. split; [apply owner_only_mode|].
    intros Hmask. pose proof (Z.lor_ldiff_and 448 (umask os)) as Hor.
    by rewrite (Z.land_comm 448), Hmask, Z.lor_0_r in Hor.
  - intros n Hsome Hstat Huid. eexists.
    split; [by apply bootstrap_foreign_owner|done].
  - intros Hstat. eexists _, _.
    split; [by apply bootstrap_stat_fails|]. split; [|done].
    unfold HasPrefix. cbv [String.append]. cbn [String.prefix]. apply prefix_empty.
  - intros Hnone Hstat Hwrite. eexists _, _.
    split; [by apply bootstrap_create_fails|]. split; [|done].
    unfold HasPrefix. cbv [String.append]. cbn [String.prefix]. apply prefix_empty.
Qed.

Lemma runtime_dir_bootstrap_witness :
  0 <= euid sampleOS < 2 ^ 32
  ∧ ∃ os', setupEnvironment sampleOS = Booted os'
      ∧ nodes os' = <["/tmp/1001-runtime-dir" := Dir 1001 448]> (nodes sampleOS).
Proof.
  assert (Heuid : 0 <= euid sampleOS < 2 ^ 32) by (by vm_compute).
  split; [exact Heuid|].
  destruct (runtime_dir_bootstrap sampleOS Heuid) as [Hcreate _].
  destruct Hcreate as (os' & Hboot & Hnodes & _).
  - by vm_compute.
  - exact (not_elem_of_empty _).
  - exact (not_elem_of_empty _).
  - exists os'. split; [exact Hboot | exact Hnodes].
Defined.

(** ** The install action *)

Lemma run_bind {A B} (m : M A) (k : A → M B) os a os' :
  m os = (a, os') → bind m k os = k a os'.
Proof. unfold bind. by intros ->. Qed.

Section Install.
Context `{Platform}.

Lemma CombinedOutput_history argv os :
  ∃ out e os',
    CombinedOutput argv os = ((out, e), os')
    ∧ history os' = history os ++ [ProcEntry argv out e].
Proof. by eexists _, _, _. Qed.

Lemma isPackageInstalled_history pkg os :
  ∃ out e os',
    isPackageInstalled pkg os
    = (match e with None => true | Some _ => false end, os')
    ∧ history os' = history os ++ [ProcEntry (infoCmd pkg) out e].
Proof. by eexists _, _, _. Qed.

Lemma installEach_trace todo : ∀ logs failed os,
  ∃ os' h lines failed',
    installEach todo logs failed os = ((logs ++ lines, failed ++ failed'), os')
    ∧ history os' = history os ++ h
    ∧ installTrace todo h lines failed'.
Proof.
  induction todo as [|pkg rest IH]; intros logs failed os.
  - exists os, [], [], []. rewrite !app_nil_r. repeat split. constructor.
  - cbn [installEach].
    destruct (isPackageInstalled_history pkg os)
      as (out1 & e1 & os1 & Hrun1 & Hh1).
    erewrite run_bind by exact Hrun1.
    destruct e1 as [e1|].
    + destruct (CombinedOutput_history (installCmd pkg) os1)
        as (out2 & e2 & os2 & Hrun2 & Hh2).
      erewrite run_bind by exact Hrun2.
      destruct e2 as [e2|].
      * destruct (IH (logs ++ ["Failed to install " +:+ pkg +:+ ": " +:+ TrimSpace out2])
                     (failed ++ [pkg]) os2) as (os' & h & l & f & -> & Hh & Htr).
        eexists os', _, _, _. rewrite <- !app_assoc. split; [done|].
        split; [|by eapply trace_failed].
        rewrite Hh, Hh2, Hh1, <- !app_assoc. done.
      * destruct (IH (logs ++ ["Successfully installed " +:+ pkg]) failed os2)
          as (os' & h & l & f & -> & Hh & Htr).
        eexists os', _, _, _. rewrite <- !app_assoc. split; [done|].
        split; [|by eapply trace_installed].
        rewrite Hh, Hh2, Hh1, <- !app_assoc. done.
    + destruct (IH (logs ++ ["Already installed: " +:+ pkg]) failed os1)
        as (os' & h & l & f & -> & Hh & Htr).
      eexists os', _, _, _. rewrite <- !app_assoc. split; [done|].
      split; [|by eapply trace_present].
      rewrite Hh, Hh1, <- !app_assoc. done.
Qed.

Lemma trace_length todo h lines failed :
  installTrace todo h lines failed → length lines = length todo.
Proof. induction 1; simpl; congruence. Qed.

Lemma trace_lines todo h lines failed :
  installTrace todo h lines failed →
  ∀ (i : nat) pkg, todo !! i = Some pkg →
    ∃ line, lines !! i = Some line
      ∧ (line = "Already installed: " +:+ pkg
         ∨ line = "Successfully installed " +:+ pkg
         ∨ ∃ out, line = "Failed to install " +:+ pkg +:+ ": " +:+ TrimSpace out).
Proof.
  induction 1 as [|pkg0 ????? _ IH|pkg0 ??????? _ IH|pkg0 ???????? _ IH];
    intros [|i] pkg Hi; simplify_eq/=; eauto 6.
Qed.

Lemma trace_checks_all todo h lines failed :
  installTrace todo h lines failed →
  ∀ pkg, pkg ∈ todo → ∃ out e, ProcEntry (infoCmd pkg) out e ∈ h.
Proof.
  induction 1 as [|pkg0 ????? _ IH|pkg0 ??????? _ IH|pkg0 ???????? _ IH];
    intros pkg Hin.
  - by apply elem_of_nil in Hin.
  - apply elem_of_cons in Hin as [->|Hin].
    + eexists _, _. apply list_elem_of_here.
    + destruct (IH _ Hin) as (out' & e' & Hin'). eexists _, _.
      by apply list_elem_of_further.
  - apply elem_of_cons in Hin as [->|Hin].
    + eexists _, _. apply list_elem_of_here.
    + destruct (IH _ Hin) as (out' & e' & Hin'). eexists _, _.
      by do 2 apply list_elem_of_further.
  - apply elem_of_cons in Hin as [->|Hin].
    + eexists _, _. apply list_elem_of_here.
    + destruct (IH _ Hin) as (out' & e' & Hin'). eexists _, _.
      by do 2 apply list_elem_of_further.
Qed.

Lemma trace_argv todo h lines failed :
  installTrace todo h lines failed →
  ∀ entry, entry ∈ h →
    ∃ pkg, pkg ∈ todo
      ∧ (pe_argv entry = infoCmd pkg ∨ pe_argv entry = installCmd pkg).
Proof.
  induction 1 as [|pkg0 ????? _ IH|pkg0 ??????? _ IH|pkg0 ???????? _ IH];
    intros entry Hin.
  - by apply elem_of_nil in Hin.
  - apply elem_of_cons in Hin as [->|Hin].
    + exists pkg0. split; [left|by left].
    + destruct (IH _ Hin) as (pkg & Hpkg & Hargv). exists pkg.
      split; [by right|done].
  - apply elem_of_cons in Hin as [->|Hin]; [|apply elem_of_cons in Hin as [->|Hin]].
    + exists pkg0. split; [left|by left].
    + exists pkg0. split; [left|by right].
    + destruct (IH _ Hin) as (pkg & Hpkg & Hargv). exists pkg.
      split; [by right|done].
  - apply elem_of_cons in Hin as [->|Hin]; [|apply elem_of_cons in Hin as [->|Hin]].
    + exists pkg0. split; [left|by left].
    + exists pkg0. split; [left|by right].
    + destruct (IH _ Hin) as (pkg & Hpkg & Hargv). exists pkg.
      split; [by right|done].
Qed.

Lemma trace_present_skips todo h lines failed :
  installTrace todo h lines failed → NoDup todo →
  ∀ pkg out, ProcEntry (infoCmd pkg) out None ∈ h →
    (∀ entry, entry ∈ h → pe_argv entry ≠ installCmd pkg)
    ∧ "Already installed: " +:+ pkg ∈ lines.
Proof.
  induction 1 as [|pkg0 ????? Htr IH|pkg0 ??????? Htr IH|pkg0 ???????? Htr IH];
    intros Hdup pkg o Hin.
  - by apply elem_of_nil in Hin.
  - apply NoDup_cons in Hdup as [Hfresh Hdup].
    apply elem_of_cons in Hin as [[= -> ->]|Hin].
    + split; [|left]. intros entry [->|Hentry]%elem_of_cons; [done|].
      destruct (trace_argv _ _ _ _ Htr _ Hentry) as (pkg' & Hpkg' & [-> | ->]);
        [done|]. by intros [= ->].
    + destruct (IH Hdup _ _ Hin) as [Hno Hline].
      split; [|by right]. intros entry [->|Hentry]%elem_of_cons; [done|by apply Hno].
  - apply NoDup_cons in Hdup as [Hfresh Hdup].
    apply elem_of_cons in Hin as [[=]|Hin].
    apply elem_of_cons in Hin as [[=]|Hin].
    destruct (IH Hdup _ _ Hin) as [Hno Hline].
    split; [|by right].
    intros entry [->|[->|Hentry]%elem_of_cons]%elem_of_cons; [done| |by apply Hno].
    intros [= ->].
    destruct (trace_argv _ _ _ _ Htr _ Hin) as (pkg' & Hpkg' & [[= ->]|[=]]). done.
  - apply NoDup_cons in Hdup as [Hfresh Hdup].
    apply elem_of_cons in Hin as [[=]|Hin].
    apply elem_of_cons in Hin as [[=]|Hin].
    destruct (IH Hdup _ _ Hin) as [Hno Hline].
    split; [|by right].
    intros entry [->|[->|Hentry]%elem_of_cons]%elem_of_cons; [done| |by apply Hno].
    intros [= ->].
    destruct (trace_argv _ _ _ _ Htr _ Hin) as (pkg' & Hpkg' & [[= ->]|[=]]). done.
Qed.

Lemma trace_failed_iff todo h lines failed :
  installTrace todo h lines failed →
  ∀ pkg, pkg ∈ failed ↔ ∃ entry, entry ∈ h ∧ failedInstall pkg entry.
Proof.
  unfold failedInstall.
  induction 1 as [|pkg0 ????? Htr IH|pkg0 ??????? Htr IH|pkg0 ???????? Htr IH];
    intros pkg.
  - split; [by intros ?%elem_of_nil|]. by intros (? & ?%elem_of_nil & _).
  - rewrite IH. split.
    + intros (entry & Hin & Hf). exists entry. split; [by right|done].
    + intros (entry & [->|Hin]%elem_of_cons & Hargv & Herr); [done|]. eauto.
  - rewrite IH. split.
    + intros (entry & Hin & Hf). exists entry. split; [by do 2 right|done].
    + intros (entry & [->|[->|Hin]%elem_of_cons]%elem_of_cons & Hargv & Herr);
        [done|by destruct Herr|]. eauto.
  - rewrite elem_of_cons, IH. split.
    + intros [->|(entry & Hin & Hf)].
      * eexists. split; [right; left|]. by split.
      * exists entry. split; [by do 2 right|done].
    + intros (entry & [->|[->|Hin]%elem_of_cons]%elem_of_cons & Hargv & Herr);
        [done| |by eauto].
      left. by injection Hargv.
Qed.

Lemma trace_after_failure todo h lines failed :
  installTrace todo h lines failed →
  ∀ h1 entry h2 pkg, h = h1 ++ entry :: h2 → failedInstall pkg entry →
    ∃ before after lines2 failed2,
      todo = before ++ pkg :: after ∧ installTrace after h2 lines2 failed2.
Proof.
  unfold failedInstall.
  induction 1 as [|pkg0 ????? Htr IH|pkg0 ??????? Htr IH|pkg0 ???????? Htr IH];
    intros h1 entry h2 pkg Hh [Hargv Herr].
  - by destruct h1.
  - destruct h1 as [|x h1]; simplify_eq/=.
    destruct (IH _ _ _ pkg eq_refl) as (before & after & l2 & f2 & -> & Htr2);
      [done|].
    by exists (pkg0 :: before), after, l2, f2.
  - destruct h1 as [|x [|y h1]]; simplify_eq/=; [by destruct Herr|].
    destruct (IH _ _ _ pkg eq_refl) as (before & after & l2 & f2 & -> & Htr2);
      [done|].
    by exists (pkg0 :: before), after, l2, f2.
  - destruct h1 as [|x [|y h1]]; simplify_eq/=.
    + by eexists [], _, _, _.
    + destruct (IH _ _ _ pkg eq_refl) as (before & after & l2 & f2 & -> & Htr2);
        [done|].
      by exists (pkg0 :: before), after, l2, f2.
Qed.
Lemma installNiri_trace os :
  ∃ os' h lines failed,
    installNiri os = (installResult lines failed, os')
    ∧ history os' = history os ++ h
    ∧ installTrace pkgs h lines failed.
Proof.
  destruct (installEach_trace pkgs [] [] os) as (os' & h & l & f & Hrun & Hh & Htr).
  exists os', h, l, f. unfold installNiri. by erewrite run_bind by exact Hrun.
Qed.
End Install.

Lemma installResult_status lines failed :
  status (installResult lines failed) = Join (lines ++ failureSummary failed) nl
  ∧ (is_Some (err (installResult lines failed)) ↔ failed ≠ []).
Proof.
  unfold installResult, failureSummary. destruct failed as [|pkg failed].
  - simpl. rewrite app_nil_r. split; [done|]. split; [by intros []|done].
  - replace (0 <? len (pkg :: failed)) with true
      by (symmetry; apply Z.ltb_lt; unfold len; simpl; lia).
    simpl. split; [done|]. split; [done|by eexists].
Qed.

Lemma NoDup_pkgs : NoDup pkgs.
Proof. apply (bool_decide_unpack (NoDup pkgs)). by vm_compute. Qed.

(** C1: the install action leaves a history [h] of child processes and a
    status made of one log entry per package, in the order of the list,
    followed by the failure summary if there is one.  A package whose
    presence check succeeded has no install command in [h] and has its
    [Already installed] entry; the summary names exactly the packages whose
    install command failed; every package of the list has had its presence
    check, whatever failed before it; and the action returns an error if and
    only if some install command failed. *)
Theorem install_continues_and_reports `{Platform} (os : OS) :
  ∃ h lines failed,
    history (installNiri os).2 = history os ++ h
    ∧ status (installNiri os).1 = Join (lines ++ failureSummary failed) nl
    ∧ length lines = length pkgs
    ∧ (∀ (i : nat) pkg, pkgs !! i = Some pkg →
         ∃ line, lines !! i = Some line
           ∧ (line = "Already installed: " +:+ pkg
              ∨ line = "Successfully installed " +:+ pkg
              ∨ ∃ out, line = "Failed to install " +:+ pkg +:+ ": " +:+ TrimSpace out))
    ∧ (∀ pkg out, ProcEntry (infoCmd pkg) out None ∈ h →
         (∀ entry, entry ∈ h → pe_argv entry ≠ installCmd pkg)
         ∧ "Already installed: " +:+ pkg ∈ lines)
    ∧ (∀ pkg, pkg ∈ failed ↔ ∃ entry, entry ∈ h ∧ failedInstall pkg entry)
    ∧ (∀ pkg, pkg ∈ pkgs → ∃ out e, ProcEntry (infoCmd pkg) out e ∈ h)
    ∧ (is_Some (err (installNiri os).1)
       ↔ ∃ pkg entry, entry ∈ h ∧ failedInstall pkg entry).
Proof.
  destruct (installNiri_trace os) as (os' & h & lines & failed & -> & Hh & Htr).
  destruct (installResult_status lines failed) as [Hstatus Herr].
  exists h, lines, failed. cbn [fst snd].
  split; [done|]. split; [done|].
  split; [by eapply trace_length|].
  split; [by eapply trace_lines|].
  split; [by eapply trace_present_skips; [|apply NoDup_pkgs]|].
  split; [by eapply trace_failed_iff|].
  split; [by eapply trace_checks_all|].
  rewrite Herr. split.
  - destruct failed as [|pkg failed]; [done|]. intros _. exists pkg.
    apply (trace_failed_iff _ _ _ _ Htr). left.
  - intros (pkg & entry & Hin & Hfail) ->.
    eapply elem_of_nil, (trace_failed_iff _ _ _ _ Htr). eauto.
Qed.

(** C5, as the code has it: a failed install command does not end the
    action.  The packages that follow the failed one in the list all have
    their presence check after the failure; the closing summary names
    exactly the packages whose install command failed, and every package
    whose presence check succeeded has its [Already installed] entry. *)
Theorem install_goes_on_after_failure `{Platform} (os : OS) :
  ∃ h lines failed,
    history (installNiri os).2 = history os ++ h
    ∧ status (installNiri os).1 = Join (lines ++ failureSummary failed) nl
    ∧ (∀ h1 entry h2 pkg, h = h1 ++ entry :: h2 → failedInstall pkg entry →
         ∃ before after, pkgs = before ++ pkg :: after
           ∧ ∀ pkg', pkg' ∈ after → ∃ out e, ProcEntry (infoCmd pkg') out e ∈ h2)
    ∧ (∀ pkg, pkg ∈ failed ↔ ∃ entry, entry ∈ h ∧ failedInstall pkg entry)
    ∧ (∀ pkg out, ProcEntry (infoCmd pkg) out None ∈ h →
         "Already installed: " +:+ pkg ∈ lines).
Proof.
  destruct (installNiri_trace os) as (os' & h & lines & failed & -> & Hh & Htr).
  destruct (installResult_status lines failed) as [Hstatus _].
  exists h, lines, failed. cbn [fst snd].
  split; [done|]. split; [done|]. split; [|split].
  - intros h1 entry h2 pkg Hsplit Hfail.
    destruct (trace_after_failure _ _ _ _ Htr _ _ _ _ Hsplit Hfail)
      as (before & after & l2 & f2 & Hpkgs & Htr2).
    exists before, after. split; [done|]. by eapply trace_checks_all.
  - by eapply trace_failed_iff.
  - intros pkg out Hin.
    by eapply (trace_present_skips _ _ _ _ Htr NoDup_pkgs).
Qed.

(** C5 as the specification words it fails: on a machine where every
    command fails, the failed install of the first package is followed by
    further child processes. *)
Lemma install_does_not_abort :
  ¬ (∀ h1 entry h2 pkg,
       history (@installNiri refusingPlatform sampleOS).2 = h1 ++ entry :: h2 →
       failedInstall pkg entry → h2 = []).
Proof.
  intros Habort.
  pose (h := history (@installNiri refusingPlatform sampleOS).2).
  specialize (Habort (take 1 h) (ProcEntry (installCmd "drm-kmod") "boom" (Some (ExitError 1)))
                     (drop 2 h) "drm-kmod").
  assert (Hnil : drop 2 h = []); [apply Habort|by vm_compute in Hnil].
  - by vm_compute.
  - split; [done|by eexists].
Qed.

(** ** The profile step *)

Lemma prefix_app sub : ∀ s t,
  String.prefix sub s = true → String.prefix sub (s +:+ t) = true.
Proof.
  induction sub as [|a sub IH]; intros s t; [by destruct (s +:+ t)|].
  destruct s as [|b s]; simpl; [done|].
  destruct (ascii_dec a b); [apply IH|done].
Qed.

Lemma Contains_empty s : Contains s "" = true.
Proof. by destruct s. Qed.

Lemma Contains_app_l s t sub :
  Contains s sub = true → Contains (s +:+ t) sub = true.
Proof.
  induction s as [|c s IH]; simpl.
  - rewrite orb_false_r. destruct sub; [|done]. intros _. apply Contains_empty.
  - intros [Hp|Hc]%orb_true_iff; apply orb_true_iff.
    + left. by apply (prefix_app sub (String c s) t).
    + right. by apply IH.
Qed.

Lemma Contains_app_r s t sub :
  Contains t sub = true → Contains (s +:+ t) sub = true.
Proof.
  intros Ht. induction s as [|c s IH]; simpl; [done|].
  apply orb_true_iff. by right.
Qed.

Lemma xdg_header_mentions :
  Contains (nl +:+ "# Set XDG_RUNTIME_DIR for Wayland compositors" +:+ nl)
           "XDG_RUNTIME_DIR" = true.
Proof. reflexivity. Qed.

Lemma libseat_line_mentions :
  Contains ("export LIBSEAT_BACKEND=consolekit2" +:+ nl) "LIBSEAT_BACKEND" = true.
Proof. reflexivity. Qed.

Lemma set_nodes_same os : set_nodes os (nodes os) = os.
Proof. by destruct os. Qed.

Ltac run_profile :=
  unfold profileXDG, profileLibseat, bind, get, act, modify, ret, readFile,
    ReadFile, OpenFile_append, WriteString;
  repeat first
    [ progress cbn [fst snd nodes noread nowrite set_nodes negb orb]
    | rewrite decide_True by done
    | rewrite decide_False by done
    | rewrite lookup_insert_eq
    | rewrite insert_insert_eq
    | match goal with H : _ !! _ = _ |- _ => rewrite H end
    | match goal with H : Contains _ _ = _ |- _ => rewrite H end ].

Section Profile.
Variables (p xdgLine : string) (os : OS).
Hypothesis Hread : p ∉ noread os.

Lemma profileXDG_effect logs :
  ∃ logs' str n',
    profileXDG p xdgLine logs os = ((logs', str), set_nodes os n')
    ∧ xdgDone p os str n'.
Proof.
  unfold xdgDone.
  destruct (decide (p ∈ nowrite os)) as [Hwrite|Hwrite].
  { destruct (nodes os !! p) as [[data uid mode|uid mode]|] eqn:Hnode;
      [destruct (Contains data "XDG_RUNTIME_DIR") eqn:Hxdg|..];
      run_profile; eexists _, _, (nodes os); rewrite set_nodes_same; eauto. }
  destruct (nodes os !! p) as [[data uid mode|uid mode]|] eqn:Hnode.
  - destruct (Contains data "XDG_RUNTIME_DIR") eqn:Hxdg; run_profile.
    + eexists _, _, (nodes os). rewrite set_nodes_same. split; [done|].
      right; right. eauto.
    + eexists _, _, _. split; [done|]. right; right. eexists _, _.
      rewrite lookup_insert_eq. split; [done|].
      apply Contains_app_l, Contains_app_r, xdg_header_mentions.
  - run_profile. eexists _, _, (nodes os). rewrite set_nodes_same.
    split; [done|]. right; left. eauto.
  - run_profile. eexists _, _, _. split; [done|]. right; right. eexists _, _.
    rewrite lookup_insert_eq. split; [done|].
    apply Contains_app_l, Contains_app_r, xdg_header_mentions.
Qed.

Lemma profileLibseat_effect str n logs :
  xdgDone p os str n →
  ∃ logs' n', profileLibseat p str logs (set_nodes os n) = (logs', set_nodes os n')
              ∧ settled p (set_nodes os n').
Proof.
  unfold xdgDone, settled. intros Hdone.
  destruct (Contains str "LIBSEAT_BACKEND") eqn:Hlib.
  { run_profile. eexists _, n. split; [done|]. cbn [nodes nowrite set_nodes].
    destruct Hdone as [?|[?|(uid & mode & ? & ?)]]; eauto 10. }
  destruct (decide (p ∈ nowrite os)) as [Hwrite|Hwrite].
  { run_profile. eexists _, n. split; [done|]. by left. }
  destruct Hdone as [?|[(uid & mode & Hnode)|(uid & mode & Hnode & Hxdg)]]; [done|..].
  - run_profile. eexists _, n. split; [done|]. right; left. eauto.
  - run_profile. eexists _, _. split; [done|]. right; right.
    cbn [nodes set_nodes]. eexists _, _, _. rewrite lookup_insert_eq.
    split; [done|].
    split; [by apply Contains_app_l|apply Contains_app_r, libseat_line_mentions].
Qed.

Lemma profileXDG_noop logs :
  settled p os →
  ∃ logs' str, profileXDG p xdgLine logs os = ((logs', str), os)
    ∧ (p ∈ nowrite os
       ∨ (∃ uid mode, nodes os !! p = Some (Dir uid mode))
       ∨ Contains str "LIBSEAT_BACKEND" = true).
Proof.
  unfold settled. intros Hsettled.
  destruct (decide (p ∈ nowrite os)) as [Hwrite|Hwrite].
  { destruct (nodes os !! p) as [[data uid mode|uid mode]|] eqn:Hnode;
      [destruct (Contains data "XDG_RUNTIME_DIR") eqn:Hxdg|..];
      run_profile; eauto. }
  destruct Hsettled as [?|[(uid & mode & Hnode)|(data & uid & mode & Hnode & Hxdg & Hlib)]];
    [done|..]; run_profile; eauto 10.
Qed.

Lemma profileLibseat_noop str logs :
  p ∈ nowrite os
  ∨ (∃ uid mode, nodes os !! p = Some (Dir uid mode))
  ∨ Contains str "LIBSEAT_BACKEND" = true →
  ∃ logs', profileLibseat p str logs os = (logs', os).
Proof.
  intros Hcase. destruct (Contains str "LIBSEAT_BACKEND") eqn:Hlib.
  { run_profile. eauto. }
  destruct Hcase as [Hwrite|[(uid & mode & Hnode)|?]]; [..|done].
  - run_profile. eauto.
  - destruct (decide (p ∈ nowrite os)); run_profile; eauto.
Qed.
End Profile.

Lemma profileStep_settles logs os :
  profilePathOf os ∉ noread os →
  ∃ n', (profileStep logs os).2 = set_nodes os n'
        ∧ settled (profilePathOf os) (set_nodes os n').
Proof.
  unfold profilePathOf, profileStep. intros Hread.
  unfold bind at 1, get at 1. destruct (UserHomeDir os) as [homeDir e0].
  cbn [fst] in Hread. unfold bind at 1, get at 1.
  destruct (profileXDG_effect _ ("export XDG_RUNTIME_DIR=/tmp/" +:+ pretty (euid os)
                                   +:+ "-runtime-dir") os Hread logs)
    as (logs1 & str & n1 & Hrun1 & Hdone).
  erewrite run_bind by exact Hrun1.
  destruct (profileLibseat_effect _ os str n1 logs1 Hdone)
    as (logs2 & n2 & Hrun2 & Hsettled).
  rewrite Hrun2. eauto.
Qed.

Lemma profileStep_noop logs os :
  profilePathOf os ∉ noread os → settled (profilePathOf os) os →
  (profileStep logs os).2 = os.
Proof.
  unfold profilePathOf, profileStep. intros Hread Hsettled.
  unfold bind at 1, get at 1. destruct (UserHomeDir os) as [homeDir e0].
  cbn [fst] in Hread, Hsettled. unfold bind at 1, get at 1.
  destruct (profileXDG_noop _ ("export XDG_RUNTIME_DIR=/tmp/" +:+ pretty (euid os)
                                 +:+ "-runtime-dir") os Hread logs Hsettled)
    as (logs1 & str & Hrun1 & Hcase).
  erewrite run_bind by exact Hrun1.
  destruct (profileLibseat_noop _ os str logs1 Hcase) as (logs2 & Hrun2).
  by rewrite Hrun2.
Qed.

(** C7, as the code has it: on a profile that can be read, a second run of
    the profile step changes nothing: the machine, and so the profile, is as
    the first run left it. *)
Theorem profile_step_idempotent (os : OS) (logs logs' : list string)
    (Hread : profilePathOf os ∉ noread os) :
  (profileStep logs' ((profileStep logs os).2)).2 = (profileStep logs os).2.
Proof.
  destruct (profileStep_settles logs os Hread) as (n1 & -> & Hsettled).
  by apply profileStep_noop.
Qed.

Lemma profile_step_idempotent_witness :
  (profilePathOf sampleOS ∉ noread sampleOS)
  ∧ (profileStep [] ((profileStep [] sampleOS).2)).2 = (profileStep [] sampleOS).2.
Proof.
  assert (Hread : profilePathOf sampleOS ∉ noread sampleOS)
    by exact (not_elem_of_empty _).
  split; [exact Hread|].
  exact (profile_step_idempotent sampleOS [] [] Hread).
Defined.

(** C7 as the specification words it fails: a profile that can be appended
    to but not read gets the lines again on the second run. *)
Lemma profile_lines_duplicated :
  let p := "/home/u/.profile" in
  let os1 := (profileStep [] writeOnlyProfileOS).2 in
  let os2 := (profileStep [] os1).2 in
  os2 ≠ os1
  ∧ ∃ block, block ≠ ""
      ∧ nodes os1 !! p = Some (File block 1001 128)
      ∧ nodes os2 !! p = Some (File (block +:+ block) 1001 128).
Proof.
  split.
  - intros Heq. apply (f_equal (λ os, nodes os !! "/home/u/.profile")) in Heq.
    by vm_compute in Heq.
  - eexists. split; [|split; vm_compute; reflexivity]. done.
Qed.

(** ** System setup *)

Lemma isWarning_warning s : isWarning ("Warning: " +:+ s).
Proof. unfold isWarning, HasPrefix. simpl. apply prefix_empty. Qed.

Lemma OpenFile_append_frame p perm os :
  ∃ e n', OpenFile_append p perm os = (e, set_nodes os n').
Proof.
  unfold OpenFile_append. repeat case_match; eexists _, _;
    (reflexivity || by rewrite set_nodes_same).
Qed.

Lemma WriteString_frame p s os : ∃ n', WriteString p s os = set_nodes os n'.
Proof.
  unfold WriteString. repeat case_match; eexists;
    (reflexivity || by rewrite set_nodes_same).
Qed.

Lemma profileXDG_shape p xdgLine logs os :
  ∃ line str n',
    profileXDG p xdgLine logs os = ((logs ++ [line], str), set_nodes os n').
Proof.
  unfold profileXDG, bind, get, act, modify, ret.
  destruct (readFile p os) as [str e].
  destruct (_ || _).
  - destruct (OpenFile_append_frame p 420 os) as (e1 & n1 & ->).
    destruct e1 as [e1|]; [by eexists _, _, _|].
    destruct (WriteString_frame p (nl +:+ "# Set XDG_RUNTIME_DIR for Wayland compositors" +:+ nl)
                (set_nodes os n1)) as (n2 & ->).
    destruct (WriteString_frame p (xdgLine +:+ nl) (set_nodes (set_nodes os n1) n2))
      as (n3 & ->).
    destruct (readFile p _) as [str' e']. by eexists _, _, _.
  - eexists _, _, (nodes os). by rewrite set_nodes_same.
Qed.

Lemma profileLibseat_shape p str logs os :
  ∃ line n', profileLibseat p str logs os = (logs ++ [line], set_nodes os n').
Proof.
  unfold profileLibseat, bind, get, act, modify, ret.
  destruct (negb _).
  - destruct (OpenFile_append_frame p 420 os) as (e1 & n1 & ->).
    destruct e1 as [e1|]; [by eexists _, _|].
    destruct (WriteString_frame p ("export LIBSEAT_BACKEND=consolekit2" +:+ nl)
                (set_nodes os n1)) as (n2 & ->).
    by eexists _, _.
  - eexists _, (nodes os). by rewrite set_nodes_same.
Qed.

Lemma profileStep_shape logs os :
  ∃ a b n', profileStep logs os = (logs ++ [a; b], set_nodes os n').
Proof.
  unfold profileStep. unfold bind at 1, get at 1.
  destruct (UserHomeDir os) as [homeDir e0]. unfold bind at 1, get at 1.
  destruct (profileXDG_shape (filepath_Join [homeDir; ".profile"])
              ("export XDG_RUNTIME_DIR=/tmp/" +:+ pretty (euid os) +:+ "-runtime-dir")
              logs os) as (a & str & n1 & Hrun1).
  erewrite run_bind by exact Hrun1.
  destruct (profileLibseat_shape (filepath_Join [homeDir; ".profile"]) str
              (logs ++ [a]) (set_nodes os n1)) as (b & n2 & ->).
  rewrite <- app_assoc. by eexists _, _, _.
Qed.

Lemma verifyRenderDevice_shape logs os :
  ∃ a b, verifyRenderDevice logs os = (logs ++ [a; b], os).
Proof.
  unfold verifyRenderDevice, bind, get, ret.
  destruct (negb _); [|by eexists _, _].
  destruct (Open _ os); rewrite <- app_assoc; by eexists _, _.
Qed.

Section Setup.
Context `{Platform}.

Lemma CombinedOutput_runs argv os :
  ∃ out e os',
    CombinedOutput argv os = ((out, e), os')
    ∧ history os' = history os ++ [ProcEntry argv out e]
    ∧ env os' = env os.
Proof. by eexists _, _, _. Qed.

Lemma runSteps_trace steps :
  Forall (λ step, ¬ isWarning (step.1 +:+ ": OK")
                  ∧ ¬ isWarning (step.1 +:+ ": already running")) steps →
  ∀ logs os,
    ∃ os' entries lines,
      runSteps steps logs os = (logs ++ lines, os')
      ∧ history os' = history os ++ entries
      ∧ env os' = env os
      ∧ Forall3 (λ step entry line, stepLogged ["already running"] step.2 entry line)
                steps entries lines.
Proof.
  induction 1 as [|[desc cmd] steps [Hok Hrunning] _ IH]; intros logs os.
  { exists os, [], []. rewrite !app_nil_r. repeat split. constructor. }
  cbn [runSteps fst] in *.
  destruct (CombinedOutput_runs cmd os) as (out & e & os1 & Hrun & Hh1 & Henv1).
  erewrite run_bind by exact Hrun.
  assert (Hcons : ∀ line os' entries lines,
    runSteps steps (logs ++ [line]) os1 = ((logs ++ [line]) ++ lines, os') →
    history os' = history os1 ++ entries → env os' = env os1 →
    Forall3 (λ step entry line, stepLogged ["already running"] step.2 entry line)
            steps entries lines →
    stepLogged ["already running"] cmd (ProcEntry cmd out e) line →
    ∃ os' entries lines,
      runSteps steps (logs ++ [line]) os1 = (logs ++ lines, os')
      ∧ history os' = history os ++ entries
      ∧ env os' = env os
      ∧ Forall3 (λ step entry line, stepLogged ["already running"] step.2 entry line)
                ((desc, cmd) :: steps) entries lines).
  { intros line os' entries lines -> Hh Henv Hall Hstep.
    exists os', (ProcEntry cmd out e :: entries), (line :: lines).
    rewrite <- app_assoc. split; [done|].
    split; [by rewrite Hh, Hh1, <- app_assoc|].
    split; [congruence|]. by constructor. }
  destruct e as [e|]; [destruct (Contains out "already running") eqn:Hbenign|]; cbn [negb].
  - destruct (IH (logs ++ [desc +:+ ": already running"]) os1)
      as (os' & entries & lines & Hrest & Hh & Henv & Hall).
    eapply Hcons; [done..|]. split; [done|]. split; [done|].
    intros [_ Hnone]. rewrite Hnone in Hbenign; [done|left].
  - destruct (IH (logs ++ ["Warning: " +:+ desc +:+ ": " +:+ out]) os1)
      as (os' & entries & lines & Hrest & Hh & Henv & Hall).
    eapply Hcons; [done..|]. split; [done|]. split; [|intros; apply isWarning_warning].
    intros _. split; [by eexists|]. by intros b ->%list_elem_of_singleton.
  - destruct (IH (logs ++ [desc +:+ ": OK"]) os1)
      as (os' & entries & lines & Hrest & Hh & Henv & Hall).
    eapply Hcons; [done..|]. split; [done|]. split; [done|].
    by intros [[] _].
Qed.

Lemma addToVideoGroup_trace logs os :
  ∃ os' group line,
    addToVideoGroup logs os = (logs ++ [line], os')
    ∧ history os' = history os ++ group
    ∧ env os' = env os
    ∧ (if (currentUserOf os =? "")%string then group = [] ∧ isWarning line
       else ∃ entry, group = [entry]
              ∧ stepLogged [] ["sudo"; "pw"; "groupmod"; "video"; "-m"; currentUserOf os]
                           entry line).
Proof.
  unfold addToVideoGroup, currentUserOf.
  unfold bind at 1, get at 1. unfold bind at 1.
  set (user := if (Getenv "USER" os =? "")%string then Getenv "LOGNAME" os
               else Getenv "USER" os).
  replace ((if (Getenv "USER" os =? "")%string then get (Getenv "LOGNAME")
            else ret (Getenv "USER" os)) os) with (user, os)
    by (subst user; by destruct (_ =? _)%string).
  destruct (user =? "")%string eqn:Huser; cbn [negb].
  { eexists os, [], _. rewrite app_nil_r. by repeat split. }
  destruct (CombinedOutput_runs ["sudo"; "pw"; "groupmod"; "video"; "-m"; user] os)
    as (out & e & os1 & Hrun & Hh1 & Henv1).
  erewrite run_bind by exact Hrun.
  destruct e as [e|]; eexists os1, _, _; (split; [done|]); (split; [done|]);
    (split; [done|]); eexists; (split; [done|]); (split; [done|]).
  - split; [|intros; apply (isWarning_warning ("Adding user to video group: " +:+ out))].
    intros _. split; [by eexists|]. by intros b ?%elem_of_nil.
  - split; [done|]. by intros [[] _].
Qed.

Lemma loadDRM_trace logs os :
  ∃ os' entry line,
    loadDRM logs os = (logs ++ [line], os')
    ∧ history os' = history os ++ [entry]
    ∧ env os' = env os
    ∧ stepLogged ["already loaded"; "module already loaded"]
                 ["sudo"; "kldload"; "drm"] entry line.
Proof.
  unfold loadDRM.
  destruct (CombinedOutput_runs ["sudo"; "kldload"; "drm"] os)
    as (out & e & os1 & Hrun & Hh1 & Henv1).
  erewrite run_bind by exact Hrun.
  destruct e as [e|]; [destruct (_ || _) eqn:Hbenign|];
    eexists os1, _, _; (split; [done|]); (split; [done|]); (split; [done|]);
    (split; [done|]).
  - split; [done|]. intros [_ Hnone].
    rewrite !Hnone in Hbenign; [done|right; left|left].
  - apply orb_false_iff in Hbenign as [Hloaded Hmodule].
    split; [|intros; apply (isWarning_warning ("Loading DRM kernel module: " +:+ out))].
    intros _. split; [by eexists|].
    intros b [->|[->|?%elem_of_nil]%elem_of_cons]%elem_of_cons; done.
  - split; [done|]. by intros [[] _].
Qed.

Lemma persistDRM_trace logs os :
  ∃ os' entry line,
    persistDRM logs os = (logs ++ [line], os')
    ∧ history os' = history os ++ [entry]
    ∧ env os' = env os
    ∧ stepLogged [] ["sudo"; "sysrc"; "kld_list+=drm"] entry line.
Proof.
  unfold persistDRM.
  destruct (CombinedOutput_runs ["sudo"; "sysrc"; "kld_list+=drm"] os)
    as (out & e & os1 & Hrun & Hh1 & Henv1).
  erewrite run_bind by exact Hrun.
  destruct e as [e|];
    eexists os1, _, _; (split; [done|]); (split; [done|]); (split; [done|]);
    (split; [done|]).
  - split; [|intros; apply (isWarning_warning ("Persisting DRM module to boot: " +:+ out))].
    intros _. split; [by eexists|]. by intros b ?%elem_of_nil.
  - split; [done|]. by intros [[] _].
Qed.
Lemma currentUserOf_env os os' :
  env os' = env os → currentUserOf os' = currentUserOf os.
Proof. unfold currentUserOf, Getenv. by intros ->. Qed.

Lemma serviceSteps_plain :
  Forall (λ step, ¬ isWarning (step.1 +:+ ": OK")
                  ∧ ¬ isWarning (step.1 +:+ ": already running")) serviceSteps.
Proof. repeat constructor; done. Qed.

Lemma setupLogs_trace os :
  ∃ os' entries lines group line5 entry6 line6 entry7 line7 rest,
    setupLogs os = (lines ++ [line5; line6; line7] ++ rest, os')
    ∧ history os' = history os ++ entries ++ group ++ [entry6; entry7]
    ∧ length rest = 9%nat
    ∧ Forall3 (λ step entry line, stepLogged ["already running"] step.2 entry line)
              serviceSteps entries lines
    ∧ (if (currentUserOf os =? "")%string then group = [] ∧ isWarning line5
       else ∃ entry5, group = [entry5]
              ∧ stepLogged [] ["sudo"; "pw"; "groupmod"; "video"; "-m"; currentUserOf os]
                           entry5 line5)
    ∧ stepLogged ["already loaded"; "module already loaded"]
                 ["sudo"; "kldload"; "drm"] entry6 line6
    ∧ stepLogged [] ["sudo"; "sysrc"; "kld_list+=drm"] entry7 line7.
Proof.
  unfold setupLogs.
  destruct (runSteps_trace serviceSteps serviceSteps_plain [] os)
    as (os1 & entries & lines & Hrun1 & Hh1 & Henv1 & Hsteps).
  erewrite run_bind by exact Hrun1. cbn [app].
  destruct (addToVideoGroup_trace lines os1)
    as (os2 & group & line5 & Hrun2 & Hh2 & Henv2 & Hgroup).
  erewrite run_bind by exact Hrun2.
  destruct (loadDRM_trace (lines ++ [line5]) os2)
    as (os3 & entry6 & line6 & Hrun3 & Hh3 & Henv3 & Hload).
  erewrite run_bind by exact Hrun3.
  destruct (persistDRM_trace ((lines ++ [line5]) ++ [line6]) os3)
    as (os4 & entry7 & line7 & Hrun4 & Hh4 & Henv4 & Hpersist).
  erewrite run_bind by exact Hrun4.
  destruct (profileStep_shape (((lines ++ [line5]) ++ [line6]) ++ [line7]) os4)
    as (a & b & n5 & Hrun5).
  erewrite run_bind by exact Hrun5.
  destruct (verifyRenderDevice_shape
              ((((lines ++ [line5]) ++ [line6]) ++ [line7]) ++ [a; b])
              (set_nodes os4 n5)) as (c & d & Hrun6).
  erewrite run_bind by exact Hrun6.
  rewrite (currentUserOf_env os os1 Henv1) in Hgroup.
  exists (set_nodes os4 n5), entries, lines, group, line5, entry6, line6,
         entry7, line7, ([a; b] ++ [c; d] ++ setupClosing).
  split; [unfold ret; by rewrite <- !app_assoc|].
  split; [|done].
  cbn [history set_nodes]. rewrite Hh4, Hh3, Hh2, Hh1, <- !app_assoc. done.
Qed.
End Setup.

(** C4, as the code has it: the log of Setup System starts with one entry
    for each of its command steps, in the order in which they run (the four
    service steps, the group step, the module load and its persistence),
    and nine further entries follow.  The entry of a step is a warning if
    and only if the command failed and its output has none of the step's
    benign substrings ([already running] for the service steps, [already
    loaded] for the module load); the group step, which does not run when no
    user name is known, is then logged as a warning.  The action itself
    never reports a failure. *)
Theorem setup_warns_but_succeeds `{Platform} (os : OS) :
  ∃ entries lines group line5 entry6 line6 entry7 line7 rest,
    history (setupSystem os).2 = history os ++ entries ++ group ++ [entry6; entry7]
    ∧ status (setupSystem os).1 = Join (lines ++ [line5; line6; line7] ++ rest) nl
    ∧ length rest = 9%nat
    ∧ Forall3 (λ step entry line, stepLogged ["already running"] step.2 entry line)
              serviceSteps entries lines
    ∧ (if (currentUserOf os =? "")%string then group = [] ∧ isWarning line5
       else ∃ entry5, group = [entry5]
              ∧ stepLogged [] ["sudo"; "pw"; "groupmod"; "video"; "-m"; currentUserOf os]
                           entry5 line5)
    ∧ stepLogged ["already loaded"; "module already loaded"]
                 ["sudo"; "kldload"; "drm"] entry6 line6
    ∧ stepLogged [] ["sudo"; "sysrc"; "kld_list+=drm"] entry7 line7
    ∧ err (setupSystem os).1 = None.
Proof.
  destruct (setupLogs_trace os)
    as (os' & entries & lines & group & line5 & entry6 & line6 & entry7 & line7
        & rest & Hrun & Hh & Hrest & Hsteps & Hgroup & Hload & Hpersist).
  exists entries, lines, group, line5, entry6, line6, entry7, line7, rest.
  unfold setupSystem. erewrite run_bind by exact Hrun. unfold ret. cbn [fst snd status err].
  done.
Qed.

(** C4 as the specification words it fails: on a machine where every
    command fails with an output that is not benign, the action still
    reports no failure. *)
Lemma setup_reports_no_failure :
  ¬ (is_Some (err (@setupSystem refusingPlatform sampleOS).1)
     ↔ ∃ entry, entry ∈ history (@setupSystem refusingPlatform sampleOS).2
         ∧ hardFailure ["already running"; "already loaded"] entry).
Proof.
  intros [_ Hfail]. destruct Hfail as [e He]; [|by vm_compute in He].
  exists (ProcEntry ["sudo"; "sysrc"; "dbus_enable=YES"] "boom" (Some (ExitError 1))).
  split; [vm_compute; left|].
  split; [by eexists|].
  intros b [->|[->|?%elem_of_nil]%elem_of_cons]%elem_of_cons; done.
Qed.

(** ** The render device *)

Lemma leb_iff a b : (a <=? b)%string = true ↔ String_as_OT.lt a b ∨ a = b.
Proof.
  unfold String.leb. destruct (a ?= b)%string eqn:Hcmp.
  - apply String_as_OT.cmp_eq in Hcmp. tauto.
  - apply String_as_OT.cmp_lt in Hcmp. tauto.
  - split; [done|]. intros [Hlt| ->].
    + apply String_as_OT.cmp_lt in Hlt. unfold String_as_OT.cmp in Hlt. congruence.
    + assert (String_as_OT.cmp b b = Eq) as Heq by (by apply String_as_OT.cmp_eq).
      unfold String_as_OT.cmp in Heq. congruence.
Qed.

Lemma leb_refl a : (a <=? a)%string = true.
Proof. apply leb_iff. by right. Qed.

Lemma leb_trans a b c :
  (a <=? b)%string = true → (b <=? c)%string = true → (a <=? c)%string = true.
Proof.
  rewrite !leb_iff. intros [Hab| ->] [Hbc| ->]; eauto.
  left. by eapply String_as_OT.lt_trans.
Qed.

Lemma insertString_perm x l : insertString x l ≡ₚ x :: l.
Proof.
  induction l as [|y l IH]; simpl; [done|].
  destruct (x <=? y)%string; [done|]. by rewrite IH, Permutation_swap.
Qed.

Lemma sort_Strings_perm l : sort_Strings l ≡ₚ l.
Proof.
  induction l as [|x l IH]; simpl; [done|].
  by rewrite insertString_perm, IH.
Qed.

Lemma insertString_sorted x l :
  StronglySorted (λ a b, (a <=? b)%string = true) l →
  StronglySorted (λ a b, (a <=? b)%string = true) (insertString x l).
Proof.
  induction 1 as [|y l Hsorted IH Hall]; simpl; [by repeat constructor|].
  destruct (x <=? y)%string eqn:Hxy.
  - constructor; [by constructor|]. constructor; [done|].
    eapply Forall_impl; [exact Hall|]. intros z Hyz. by eapply leb_trans.
  - constructor; [done|]. rewrite insertString_perm. constructor; [|done].
    destruct (String.leb_total x y); congruence.
Qed.

Lemma sort_Strings_sorted l :
  StronglySorted (λ a b, (a <=? b)%string = true) (sort_Strings l).
Proof.
  induction l as [|x l IH]; simpl; [constructor|]. by apply insertString_sorted.
Qed.

Lemma sort_Strings_first l first rest :
  sort_Strings l = first :: rest →
  first ∈ l ∧ ∀ y, y ∈ l → (first <=? y)%string = true.
Proof.
  intros Hsort. pose proof (sort_Strings_sorted l) as Hsorted.
  pose proof (sort_Strings_perm l) as Hperm. rewrite Hsort in *.
  split; [rewrite <- Hperm; left|].
  intros y Hy. rewrite <- Hperm in Hy.
  apply StronglySorted_inv in Hsorted as [_ Hall].
  apply elem_of_cons in Hy as [->|Hy]; [apply leb_refl|].
  by eapply Forall_forall in Hall.
Qed.

Lemma prefix_inv p : ∀ s, String.prefix p s = true → ∃ rest, s = p +:+ rest.
Proof.
  induction p as [|a p IH]; intros s; [by exists s|].
  destruct s as [|b s]; simpl; [done|].
  destruct (ascii_dec a b) as [->|]; [|done].
  intros [rest ->]%IH. by exists rest.
Qed.

Lemma splitSlash_plain s : Contains s "/" = false → splitSlash s = [s].
Proof.
  induction s as [|c s IH]; [done|].
  cbn [Contains String.prefix splitSlash].
  destruct (ascii_dec "/" c) as [<-|Hc].
  - by rewrite prefix_empty.
  - intros Hs. rewrite IH by done.
    destruct (Ascii.eqb_spec c "/") as [->|]; done.
Qed.

Lemma splitSlash_dri rest :
  Contains rest "/" = false →
  splitSlash ("/dev/dri/renderD" +:+ rest) = [""; "dev"; "dri"; "renderD" +:+ rest].
Proof.
  intros Hslash. cbv [String.append]. cbn [splitSlash Ascii.eqb Bool.eqb].
  by rewrite (splitSlash_plain rest Hslash).
Qed.

Lemma Join_dri name :
  HasPrefix name "renderD" = true → Contains name "/" = false →
  filepath_Join ["/dev/dri"; name] = "/dev/dri/" +:+ name.
Proof.
  intros [rest ->]%prefix_inv Hslash.
  assert (Hrest : Contains rest "/" = false).
  { cbv [String.append] in Hslash. cbn [Contains String.prefix] in Hslash.
    by repeat (apply orb_false_iff in Hslash as [_ Hslash]). }
  change (filepath_Join ["/dev/dri"; "renderD" +:+ rest])
    with (Clean ("/dev/dri/renderD" +:+ rest)).
  unfold Clean. rewrite (splitSlash_dri rest Hrest). reflexivity.
Qed.

Lemma leb_dri a b :
  ("/dev/dri/" +:+ a <=? "/dev/dri/" +:+ b)%string = (a <=? b)%string.
Proof. reflexivity. Qed.

Lemma ReadDir_names d os entries :
  ReadDir d os = Ok entries → ∀ name, name ∈ entries → Contains name "/" = false.
Proof.
  unfold ReadDir. destruct (decide _); [done|].
  destruct (nodes os !! d) as [[]|]; [done| |done].
  intros [= <-] name. rewrite sort_Strings_perm.
  intros (path & _ & Hchild)%list_elem_of_omap.
  unfold childName in Hchild. destruct (stripPrefix _ _); [|done].
  destruct (_ =? _)%string; [done|]. simpl in Hchild.
  destruct (Contains s "/") eqn:Hs; by simplify_eq.
Qed.

Lemma renderNodesOf_elem entries :
  (∀ name, name ∈ entries → Contains name "/" = false) →
  ∀ path, path ∈ renderNodesOf entries
          ↔ ∃ name, name ∈ entries ∧ HasPrefix name "renderD" = true
                    ∧ path = "/dev/dri/" +:+ name.
Proof.
  induction entries as [|e entries IH]; intros Hplain path;
    cbn [renderNodesOf].
  { split; [by intros ?%elem_of_nil|]. by intros (? & ?%elem_of_nil & _). }
  assert (Hrest : ∀ name, name ∈ entries → Contains name "/" = false)
    by (intros; apply Hplain; by right).
  destruct (HasPrefix e "renderD") eqn:He.
  - rewrite elem_of_cons, (IH Hrest), (Join_dri e He) by (apply Hplain; left).
    split.
    + intros [->|(name & Hin & Hp & ->)]; [exists e|exists name];
        (split; [by (left || right)|done]).
    + intros (name & [->|Hin]%elem_of_cons & Hp & ->); [by left|right; eauto].
  - rewrite (IH Hrest). split.
    + intros (name & Hin & Hp & ->). exists name. split; [by right|done].
    + intros (name & [->|Hin]%elem_of_cons & Hp & ->); [congruence|eauto].
Qed.

Lemma findRenderDevice_first os entries :
  ReadDir "/dev/dri" os = Ok entries →
  (findRenderDevice os = ""
   ∧ ∀ name, name ∈ entries → HasPrefix name "renderD" = false)
  ∨ (∃ name, name ∈ entries ∧ HasPrefix name "renderD" = true
       ∧ findRenderDevice os = "/dev/dri/" +:+ name
       ∧ ∀ name', name' ∈ entries → HasPrefix name' "renderD" = true →
           (name <=? name')%string = true).
Proof.
  intros Hdir. unfold findRenderDevice. rewrite Hdir.
  pose proof (renderNodesOf_elem entries (ReadDir_names _ _ _ Hdir)) as Helem.
  destruct (renderNodesOf entries) as [|path paths] eqn:Hnodes.
  - left. split; [done|]. intros name Hin.
    destruct (HasPrefix name "renderD") eqn:Hp; [|done].
    exfalso. eapply elem_of_nil, Helem. eauto.
  - right. replace (len (path :: paths) =? 0) with false
      by (symmetry; apply Z.eqb_neq; unfold len; simpl; lia).
    destruct (sort_Strings (path :: paths)) as [|first rest] eqn:Hsort.
    { pose proof (sort_Strings_perm (path :: paths)) as Hperm.
      rewrite Hsort in Hperm. by apply Permutation_nil_cons in Hperm. }
    apply sort_Strings_first in Hsort as [Hin Hleast].
    apply Helem in Hin as (name & Hname & Hp & ->).
    exists name. repeat split; [done..|].
    intros name' Hname' Hp'. rewrite <- leb_dri. apply Hleast, Helem. eauto.
Qed.

(** ** Configuration *)

Lemma bind_get {A B} (f : OS → A) (k : A → M B) os :
  bind (get f) k os = k (f os) os.
Proof. done. Qed.

Lemma mkdirEach_frame dirs perm : ∀ os,
  ∃ e n', mkdirEach dirs perm os = (e, set_nodes os n')
    ∧ ∀ p data uid mode,
        n' !! p = Some (File data uid mode)
        ↔ nodes os !! p = Some (File data uid mode).
Proof.
  induction dirs as [|d dirs IH]; intros os; cbn [mkdirEach].
  { exists None, (nodes os). by rewrite set_nodes_same. }
  destruct (nodes os !! d) as [[data uid mode|uid mode]|] eqn:Hd.
  - eexists _, (nodes os). by rewrite set_nodes_same.
  - apply IH.
  - unfold Mkdir. rewrite Hd. destruct (decide _).
    { eexists _, (nodes os). by rewrite set_nodes_same. }
    destruct (IH (set_nodes os (<[d:=Dir (euid os) (created_mode os perm)]> (nodes os))))
      as (e & n' & -> & Hfiles).
    exists e, n'. split; [done|]. intros p data uid mode.
    rewrite Hfiles. cbn [nodes set_nodes].
    destruct (decide (d = p)) as [->|Hne].
    + rewrite lookup_insert_eq, Hd. split; done.
    + by rewrite lookup_insert_ne.
Qed.

Lemma ReadFile_frame name os n' data :
  (∀ p data uid mode,
     n' !! p = Some (File data uid mode) ↔ nodes os !! p = Some (File data uid mode)) →
  ReadFile name (set_nodes os n') = Ok data → ReadFile name os = Ok data.
Proof.
  intros Hfiles. unfold ReadFile. cbn [noread nodes set_nodes].
  destruct (decide _); [done|].
  destruct (n' !! name) as [[data' uid mode|]|] eqn:Hn; [|done..].
  intros [= ->]. apply Hfiles in Hn. by rewrite Hn.
Qed.

Lemma WriteFile_written name data perm os os' :
  WriteFile name data perm os = (None, os') →
  (∃ uid mode, nodes os' !! name = Some (File data uid mode))
  ∧ ∀ p, p ≠ name → nodes os' !! p = nodes os !! p.
Proof.
  unfold WriteFile. destruct (decide _); [done|].
  destruct (nodes os !! name) as [[]|]; intros [= <-]; cbn [nodes set_nodes];
    (split; [eexists _, _; apply lookup_insert_eq
            |intros p Hp; by apply lookup_insert_ne]).
Qed.

Lemma configureNiri_result os :
  err (configureNiri os).1 = None →
  let configDir := filepath_Join [(UserHomeDir os).1; ".config"; "niri"] in
  let dest := filepath_Join [configDir; "config.kdl"] in
  let os1 := (MkdirAll configDir 493 os).2 in
  let dev := findRenderDevice os1 in
  ∃ exePath src tmpl uid mode,
    exe os = Some exePath
    ∧ (src = filepath_Join [filepath_Dir exePath; "config.kdl"]
       ∨ src = filepath_Join [cwd os; "config.kdl"])
    ∧ ReadFile src os = Ok tmpl
    ∧ nodes (configureNiri os).2 !! dest
      = Some (File (if negb (dev =? "")%string
                       && negb (Contains tmpl "render-drm-device")
                    then tmpl +:+ debugBlock dev else tmpl) uid mode)
    ∧ ∀ p, p ≠ dest → nodes (configureNiri os).2 !! p = nodes os1 !! p.
Proof.
  intros Hok configDir dest os1 dev. subst configDir dest os1 dev.
  remember (configureNiri os) as r eqn:Hr.
  unfold configureNiri in Hr. rewrite bind_get in Hr.
  destruct (UserHomeDir os) as [homeDir [e|]];
    [unfold ret in Hr; by subst r|]. cbn [fst].
  unfold MkdirAll in *.
  destruct (mkdirEach_frame (ancestors (filepath_Join [homeDir; ".config"; "niri"])) 493 os)
    as (e1 & n1 & Hmk & Hfiles).
  erewrite run_bind in Hr by exact Hmk. rewrite Hmk. cbn [snd].
  destruct e1 as [e1|]; [unfold ret in Hr; by subst r|].
  rewrite bind_get in Hr. unfold Executable in Hr. cbn [exe set_nodes] in Hr.
  destruct (exe os) as [exePath|] eqn:Hexe; [|unfold ret in Hr; by subst r].
  rewrite bind_get in Hr.
  set (beside := filepath_Join [filepath_Dir exePath; "config.kdl"]) in *.
  assert (∃ src, (src = beside ∨ src = filepath_Join [cwd os; "config.kdl"])
            ∧ ∀ B (k : string → M B),
                bind (if IsNotExist (statErr beside (set_nodes os n1))
                      then bind (get cwd) (λ cwd, ret (filepath_Join [cwd; "config.kdl"]))
                      else ret beside) k (set_nodes os n1)
                = k src (set_nodes os n1)) as (src & Hsrc & Hbind).
  { destruct (IsNotExist _); eexists; (split; [|done]); eauto. }
  rewrite Hbind in Hr. clear Hbind. rewrite bind_get in Hr.
  destruct (IsNotExist (statErr src (set_nodes os n1))) eqn:Hexists.
  { unfold ret in Hr. subst r. cbn [fst err] in Hok. by rewrite Hok in Hexists. }
  rewrite bind_get in Hr. unfold readFile in Hr.
  destruct (ReadFile src (set_nodes os n1)) as [tmpl|e] eqn:Hread;
    [|unfold ret in Hr; by subst r].
  rewrite bind_get in Hr.
  match type of Hr with
  | context [act (WriteFile ?p ?d 420)] =>
    destruct (WriteFile p d 420 (set_nodes os n1)) as [[e|] os2] eqn:Hwrite
  end;
    erewrite run_bind in Hr by exact Hwrite; unfold ret in Hr; subst r; [done|].
  apply WriteFile_written in Hwrite as [(uid & mode & Hdest) Hothers].
  exists exePath, src, tmpl, uid, mode. cbn [snd].
  split; [done|]. split; [done|]. split; [by eapply ReadFile_frame|done].
Qed.

(** C6: after a successful Configure, whatever was at the destination
    before, the destination file holds the text of the template (the
    [config.kdl] beside the executable or in the working directory, read
    before the write), with the debug block of the render device appended
    if and only if a render device was found and the template does not
    mention [render-drm-device]; no other path is written once the
    configuration directory is there.  The render device is the entry of
    [/dev/dri] whose name starts with [renderD] and comes first in
    lexicographic order, or none if there is no such entry. *)
Theorem configure_overwrites (os : OS) (Hok : err (configureNiri os).1 = None) :
  let configDir := filepath_Join [(UserHomeDir os).1; ".config"; "niri"] in
  let dest := filepath_Join [configDir; "config.kdl"] in
  let os1 := (MkdirAll configDir 493 os).2 in
  let dev := findRenderDevice os1 in
  (∃ exePath src tmpl uid mode,
     exe os = Some exePath
     ∧ (src = filepath_Join [filepath_Dir exePath; "config.kdl"]
        ∨ src = filepath_Join [cwd os; "config.kdl"])
     ∧ ReadFile src os = Ok tmpl
     ∧ nodes (configureNiri os).2 !! dest
       = Some (File (if negb (dev =? "")%string
                        && negb (Contains tmpl "render-drm-device")
                     then tmpl +:+ debugBlock dev else tmpl) uid mode)
     ∧ ∀ p, p ≠ dest → nodes (configureNiri os).2 !! p = nodes os1 !! p)
  ∧ (∀ o entries, ReadDir "/dev/dri" o = Ok entries →
       (findRenderDevice o = ""
        ∧ ∀ name, name ∈ entries → HasPrefix name "renderD" = false)
       ∨ (∃ name, name ∈ entries ∧ HasPrefix name "renderD" = true
            ∧ findRenderDevice o = "/dev/dri/" +:+ name
            ∧ ∀ name', name' ∈ entries → HasPrefix name' "renderD" = true →
                (name <=? name')%string = true)).
Proof.
  intros configDir dest os1 dev. split.
  - by apply configureNiri_result.
  - intros o entries. apply findRenderDevice_first.
Qed.

Lemma configure_overwrites_witness :
  err (configureNiri sampleOS).1 = None
  ∧ ∃ exePath src tmpl uid mode,
      exe sampleOS = Some exePath
      ∧ (src = filepath_Join [filepath_Dir exePath; "config.kdl"]
         ∨ src = filepath_Join [cwd sampleOS; "config.kdl"])
      ∧ ReadFile src sampleOS = Ok tmpl
      ∧ nodes (configureNiri sampleOS).2 !! "/home/u/.config/niri/config.kdl"
        = Some (File (if negb (Contains tmpl "render-drm-device")
                      then tmpl +:+ debugBlock "/dev/dri/renderD128" else tmpl)
                     uid mode)
      ∧ ∀ p, p ≠ "/home/u/.config/niri/config.kdl" →
          nodes (configureNiri sampleOS).2 !! p
          = nodes (MkdirAll "/home/u/.config/niri" 493 sampleOS).2 !! p.
Proof.
  assert (Hok : err (configureNiri sampleOS).1 = None) by (vm_compute; reflexivity).
  split; [exact Hok|].
  exact (proj1 (configure_overwrites sampleOS Hok)).
Defined.

(** * Further properties *)

(** ** The menu / state UI *)

Lemma dispatch_cases m m' c :
  dispatch m = Returned m' c →
  ∃ label, index (choices m) (cursor m) = Some label
    ∧ selected m' = label ∧ isProcessing m' = true
    ∧ cursor m' = cursor m ∧ logs m' = logs m
    ∧ choices m' = choices m ∧ progress m' = progress m
    ∧ ((label = "Exit" ∧ c = Some Quit ∧ state m' = state m
        ∧ m' = set_isProcessing (set_selected m "Exit") true)
       ∨ (label ≠ "Exit" ∧ c = None ∧ state m' = state m)
       ∨ (label ≠ "Exit" ∧ busy m'
          ∧ ∃ cmd, c = Some cmd ∧ cmd ≠ Quit
              ∧ ∀ saved, cmd = CmdSaveLogsToFile saved → saved = m')).
Proof.
  unfold dispatch. destruct (index _ _) as [label|]; [|done].
  intros Hd. exists label. split; [done|]. revert Hd.
  repeat (match goal with
          | |- context [String.eqb ?l ?lit] =>
            destruct (String.eqb_spec l lit) as [->|?]
          end;
          [intros [= <- <-]; cbn; repeat (split; [done|])|]).
  6: { by left. }
  6: { intros [= <- <-]. cbn. repeat (split; [done|]). right; left. done. }
  all: right; right; split; [done|]; split; [first [by left | by right]|];
       eexists; split; [done|]; split; [done|]; intros saved Hs; by simplify_eq.
Qed.

(** X1: in the menu of the program (the six entries of [initialModel]),
    with the cursor on an entry, [enter] never panics and never falls
    through: it records the label as [selected], sets [isProcessing], leaves
    the cursor and the log buffer alone and hands out a command, which is
    [tea.Quit] for [Exit] and otherwise an action, the model then showing a
    busy view. *)
Theorem enter_always_dispatches (m : model)
    (Hmenu : state m = menuView) (Hchoices : choices m = choices initialModel)
    (Hinv : cursor_inv m) :
  ∃ m' cmd label,
    Update m (KeyMsg "enter") = Returned m' (Some cmd)
    ∧ index (choices m) (cursor m) = Some label
    ∧ selected m' = label ∧ isProcessing m' = true
    ∧ cursor m' = cursor m ∧ logs m' = logs m
    ∧ ((label = "Exit" ∧ cmd = Quit ∧ state m' = menuView)
       ∨ (label ≠ "Exit" ∧ cmd ≠ Quit ∧ busy m')).
Proof.
  unfold cursor_inv in Hinv. rewrite Hchoices in Hinv.
  assert (Hc : cursor m = 0 ∨ cursor m = 1 ∨ cursor m = 2 ∨ cursor m = 3
               ∨ cursor m = 4 ∨ cursor m = 5)
    by (unfold len in Hinv; simpl in Hinv; lia).
  unfold Update. rewrite Hmenu. cbn [String.eqb Ascii.eqb Bool.eqb orb].
  unfold dispatch. rewrite Hchoices.
  destruct Hc as [Hc|[Hc|[Hc|[Hc|[Hc|Hc]]]]]; rewrite Hc; cbn;
    eexists _, _, _; (split; [done|]); (repeat (split; [done|]));
    first [ by left | right; repeat split; try done; first [by left | by right] ].
Qed.

Lemma enter_always_dispatches_witness :
  state initialModel = menuView ∧ cursor_inv initialModel
  ∧ ∃ m' cmd label,
      Update initialModel (KeyMsg "enter") = Returned m' (Some cmd)
      ∧ index (choices initialModel) (cursor initialModel) = Some label
      ∧ selected m' = label ∧ isProcessing m' = true
      ∧ cursor m' = cursor initialModel ∧ logs m' = logs initialModel
      ∧ ((label = "Exit" ∧ cmd = Quit ∧ state m' = menuView)
         ∨ (label ≠ "Exit" ∧ cmd ≠ Quit ∧ busy m')).
Proof.
  assert (Hinv : cursor_inv initialModel) by (vm_compute; split; discriminate).
  split; [reflexivity|]. split; [exact Hinv|].
  exact (enter_always_dispatches initialModel eq_refl eq_refl Hinv).
Defined.

Lemma key_cases m key m' c :
  Update m (KeyMsg key) = Returned m' c →
  (busy m ∧ m' = m ∧ c = None)
  ∨ (state m = menuView
     ∧ (((key = "ctrl+c" ∨ key = "q") ∧ m' = m ∧ c = Some Quit)
        ∨ (key = "up" ∧ c = None
           ∧ m' = (if 0 <? cursor m then set_cursor m (int_sub (cursor m) 1) else m))
        ∨ (key = "down" ∧ c = None
           ∧ m' = (if cursor m <? int_sub (len (choices m)) 1
                   then set_cursor m (int_add (cursor m) 1) else m))
        ∨ (key = "enter" ∧ dispatch m = Returned m' c)
        ∨ (key ≠ "ctrl+c" ∧ key ≠ "q" ∧ key ≠ "enter" ∧ m' = m ∧ c = None))).
Proof.
  unfold Update. destruct (state m) eqn:Hst;
    [|intros [= <- <-]; left; split; [by (right + left)|done]..].
  intros Hu. right. split; [done|]. revert Hu.
  destruct (String.eqb_spec key "ctrl+c") as [->|?];
    [intros [= <- <-]; left; eauto|].
  destruct (String.eqb_spec key "q") as [->|?];
    [intros [= <- <-]; left; eauto|]. cbn [orb].
  destruct (String.eqb_spec key "up") as [->|?];
    [intros [= <- <-]; right; left; eauto|].
  destruct (String.eqb_spec key "down") as [->|?];
    [intros [= <- <-]; right; right; left; eauto|].
  destruct (String.eqb_spec key "enter") as [->|?];
    [intros Hd; right; right; right; left; eauto|].
  intros [= <- <-]. do 4 right. done.
Qed.

Lemma key_dispatch_goes_busy m key m' cmd :
  Update m (KeyMsg key) = Returned m' (Some cmd) →
  cmd = Quit
  ∨ (busy m' ∧ ∀ saved, cmd = CmdSaveLogsToFile saved → saved = m').
Proof.
  intros [(_ & _ & [=])|[_ Hmenu]]%key_cases.
  destruct Hmenu as [(_ & _ & [= <-])|[(_ & [=] & _)|[(_ & [=] & _)|[[_ Hd]|Hother]]]];
    [by left| |by destruct Hother as (_ & _ & _ & _ & [=])].
  apply dispatch_cases in Hd as (label & _ & _ & _ & _ & _ & _ & _ & Hd).
  destruct Hd as [(_ & [= <-] & _)|[(_ & [=] & _)|(_ & Hbusy & c & [= <-] & _ & Hsaved)]];
    [by left|by right].
Qed.

Lemma issued_busy keys : ∀ m, busy m → issued m (map KeyMsg keys) = [].
Proof.
  induction keys as [|key rest IH]; intros m Hbusy; [done|].
  cbn [map issued]. rewrite busy_key by done. by apply IH.
Qed.


(** X3: [Update] returns [tea.Quit] exactly for a key message in the menu
    that is [ctrl+c] or [q] (the model is returned as it is), or [enter]
    with the cursor on the entry [Exit]; no other message and no other
    state ends the program. *)
Theorem quits_only_from_menu (m m' : model) (msg : Msg) :
  Update m msg = Returned m' (Some Quit)
  ↔ ∃ key, msg = KeyMsg key ∧ state m = menuView
      ∧ (((key = "ctrl+c" ∨ key = "q") ∧ m' = m)
         ∨ (key = "enter" ∧ index (choices m) (cursor m) = Some "Exit"
            ∧ m' = set_isProcessing (set_selected m "Exit") true)).
Proof.
  split.
  - destruct msg as [key|s|]; [|done..]. intros Hu. exists key. split; [done|].
    apply key_cases in Hu as [(_ & _ & [=])|[Hst Hmenu]]. split; [done|].
    destruct Hmenu as [(Hkey & -> & _)|[(_ & [=] & _)|[(_ & [=] & _)|[[-> Hd]|Hother]]]];
      [by left| |by destruct Hother as (_ & _ & _ & _ & [=])].
    right. split; [done|].
    apply dispatch_cases in Hd as (label & Hlabel & _ & _ & _ & _ & _ & _ & Hd).
    destruct Hd as [(-> & _ & _ & ->)|[(_ & [=] & _)|(_ & _ & c & [= <-] & Hc & _)]];
      done.
  - intros (key & -> & Hst & [[[-> | ->] ->]|(-> & Hlabel & ->)]);
      unfold Update; rewrite Hst; [done..|].
    cbn [String.eqb Ascii.eqb Bool.eqb orb]. unfold dispatch. by rewrite Hlabel.
Qed.

Lemma Update_keeps (m m' : model) (msg : Msg) (c : option Cmd)
    (Hupdate : Update m msg = Returned m' c) :
  choices m' = choices m ∧ progress m' = progress m
  ∧ (∀ key, msg = KeyMsg key → logs m' = logs m)
  ∧ (∀ s, msg = Status s → cursor m' = cursor m ∧ selected m' = selected m).
Proof.
  destruct msg as [key|s|].
  - apply key_cases in Hupdate as [(_ & -> & _)|[_ Hmenu]]; [done|].
    assert (choices m' = choices m ∧ progress m' = progress m ∧ logs m' = logs m)
      as (? & ? & ?); [|done].
    destruct Hmenu as [(_ & -> & _)|[(_ & _ & ->)|[(_ & _ & ->)|[[_ Hd]|Hother]]]];
      [done|by destruct (_ <? _)|by destruct (_ <? _)| |by destruct Hother as (_ & _ & _ & -> & _)].
    by apply dispatch_cases in Hd as (label & _ & _ & _ & _ & ? & ? & ? & _).
  - injection Hupdate as <- <-. unfold complete. cbn.
    destruct (err s), (state m); split_and!; try done; by intros ? [=].
  - injection Hupdate as <- <-. split_and!; try done; by intros ? [=].
Qed.

(** X4: no message changes [choices] or [progress]; a key message never
    changes the log buffer, and a completion message never changes the
    cursor or [selected]. *)
Theorem update_frame (m m' : model) (msg : Msg) (c : option Cmd)
    (Hupdate : Update m msg = Returned m' c) :
  choices m' = choices m ∧ progress m' = progress m
  ∧ (∀ key, msg = KeyMsg key → logs m' = logs m)
  ∧ (∀ s, msg = Status s → cursor m' = cursor m ∧ selected m' = selected m).
Proof. by eapply Update_keeps. Qed.

Lemma update_frame_witness :
  Update initialModel (KeyMsg "down") = Returned (set_cursor initialModel 1) None
  ∧ choices (set_cursor initialModel 1) = choices initialModel
  ∧ progress (set_cursor initialModel 1) = progress initialModel
  ∧ (∀ key, KeyMsg "down" = KeyMsg key →
       logs (set_cursor initialModel 1) = logs initialModel)
  ∧ (∀ s, KeyMsg "down" = Status s →
       cursor (set_cursor initialModel 1) = cursor initialModel
       ∧ selected (set_cursor initialModel 1) = selected initialModel).
Proof.
  assert (Hu : Update initialModel (KeyMsg "down")
               = Returned (set_cursor initialModel 1) None) by reflexivity.
  split; [exact Hu|].
  exact (update_frame initialModel _ (KeyMsg "down") None Hu).
Defined.

(** ** Saving the log *)

Lemma append_nil_r s : s +:+ "" = s.
Proof. induction s as [|a s IH]; [done|]. cbv [String.append]. fold String.append. by rewrite IH. Qed.

Lemma append_assoc s t u : (s +:+ t) +:+ u = s +:+ t +:+ u.
Proof.
  induction s as [|a s IH]; [done|].
  change ((String a (s +:+ t)) +:+ u = String a (s +:+ t +:+ u)).
  change (String a ((s +:+ t) +:+ u) = String a (s +:+ t +:+ u)).
  by rewrite IH.
Qed.

Lemma writeLogs_appends logFile entries : ∀ os data uid mode,
  nodes os !! logFile = Some (File data uid mode) →
  writeLogs logFile entries os
  = (None, set_nodes os (<[logFile := File (data +:+ logBlock entries) uid mode]> (nodes os))).
Proof.
  induction entries as [|log rest IH]; intros os data uid mode Hnode.
  - cbn [writeLogs logBlock]. unfold ret.
    by rewrite append_nil_r, insert_id, set_nodes_same.
  - cbn [writeLogs logBlock]. unfold bind, act, fileWriteString, WriteString.
    rewrite Hnode.
    erewrite IH by (cbn [nodes set_nodes]; apply lookup_insert_eq).
    cbn [nodes set_nodes]. by rewrite insert_insert_eq, append_assoc.
Qed.

Lemma saveLogsToFile_appended (m : model) (os : OS)
    (Hwrite : logFileOf os ∉ nowrite os)
    (Hfile : ∀ uid mode, nodes os !! logFileOf os ≠ Some (Dir uid mode)) :
  ∃ old uid mode,
    (nodes os !! logFileOf os = Some (File old uid mode)
     ∨ (nodes os !! logFileOf os = None ∧ old = ""
        ∧ uid = euid os ∧ mode = created_mode os 420))
    ∧ saveLogsToFile m os
      = (StatusMsg ("Logs saved to " +:+ logFileOf os) None,
         set_nodes os (<[logFileOf os := File (old +:+ logBlock (logs m)) uid mode]>
                         (nodes os))).
Proof.
  unfold saveLogsToFile, logFileOf in *.
  rewrite bind_get. set (p := filepath_Join [TempDir os; "nirisetup.log"]) in *.
  unfold bind at 1, act, OpenFile_append. rewrite decide_False by done.
  destruct (nodes os !! p) as [[old uid mode|uid mode]|] eqn:Hnode.
  - exists old, uid, mode. split; [by left|].
    erewrite run_bind by (by apply writeLogs_appends). done.
  - by destruct (Hfile uid mode).
  - exists "", (euid os), (created_mode os 420). split; [by right|].
    erewrite run_bind
      by (apply writeLogs_appends; cbn [nodes set_nodes]; apply lookup_insert_eq).
    unfold ret. cbn [nodes set_nodes]. by rewrite insert_insert_eq.
Qed.



(** X6: when the log file cannot be opened for appending (the open is
    refused, or the path is a directory), [saveLogsToFile] reports
    [Failed to open log file for writing] with the error and changes
    nothing. *)
Theorem save_logs_unopenable (m : model) (os : OS)
    (Hrefused : logFileOf os ∈ nowrite os
                ∨ ∃ uid mode, nodes os !! logFileOf os = Some (Dir uid mode)) :
  ∃ e, saveLogsToFile m os
       = (StatusMsg "Failed to open log file for writing" (Some e), os).
Proof.
  unfold saveLogsToFile, logFileOf in *.
  rewrite bind_get. set (p := filepath_Join [TempDir os; "nirisetup.log"]) in *.
  unfold bind, act, OpenFile_append.
  destruct (decide (p ∈ nowrite os)); [by eexists|].
  destruct Hrefused as [?|(uid & mode & ->)]; [done|by eexists].
Qed.

Lemma save_logs_unopenable_witness :
  (logFileOf lockedTmpOS ∈ nowrite lockedTmpOS
   ∨ ∃ uid mode, nodes lockedTmpOS !! logFileOf lockedTmpOS = Some (Dir uid mode))
  ∧ ∃ e, saveLogsToFile menuOnSaveLogs lockedTmpOS
         = (StatusMsg "Failed to open log file for writing" (Some e), lockedTmpOS).
Proof.
  assert (Hrefused : logFileOf lockedTmpOS ∈ nowrite lockedTmpOS
                     ∨ ∃ uid mode, nodes lockedTmpOS !! logFileOf lockedTmpOS
                                   = Some (Dir uid mode)).
  { left. apply (bool_decide_unpack (logFileOf lockedTmpOS ∈ nowrite lockedTmpOS)).
    by vm_compute. }
  split; [exact Hrefused|].
  exact (save_logs_unopenable menuOnSaveLogs lockedTmpOS Hrefused).
Defined.

Lemma issued_saves_buffer keys saved : ∀ m,
  CmdSaveLogsToFile saved ∈ issued m (map KeyMsg keys) → logs saved = logs m.
Proof.
  induction keys as [|key rest IH]; intros m; [by intros ?%elem_of_nil|].
  cbn [map issued].
  destruct (Update m (KeyMsg key)) as [m' [cmd|]|] eqn:Hu;
    [| |by intros ?%elem_of_nil].
  - destruct (Update_keeps _ _ _ _ Hu) as (_ & _ & Hlogs & _).
    apply key_dispatch_goes_busy in Hu as [->|[Hbusy Hsaved]].
    { by intros [=]%list_elem_of_singleton. }
    assert (Hin : CmdSaveLogsToFile saved ∈ cmd :: issued m' (map KeyMsg rest) →
                  logs saved = logs m).
    { rewrite (issued_busy rest m' Hbusy).
      intros <-%list_elem_of_singleton. rewrite (Hsaved saved eq_refl).
      by eapply Hlogs. }
    destruct cmd; try exact Hin. by intros [=]%list_elem_of_singleton.
  - destruct (Update_keeps _ _ _ _ Hu) as (_ & _ & Hlogs & _).
    intros Hin. rewrite (IH m' Hin). by eapply Hlogs.
Qed.

(** X7: after an install or system setup has completed without error, any
    [Save Logs] the user then reaches by keys captures an empty buffer (the
    completion emptied it), so that saving leaves an existing log file
    exactly as it was. *)
Theorem save_after_install_saves_nothing (m saved : model) (s : string)
    (keys : list string)
    (Hinstall : state m = installView)
    (Hsaved : CmdSaveLogsToFile saved
              ∈ issued (complete m (StatusMsg s None)) (map KeyMsg keys)) :
  logs saved = []
  ∧ ∀ os old uid mode,
      logFileOf os ∉ nowrite os →
      nodes os !! logFileOf os = Some (File old uid mode) →
      (saveLogsToFile saved os).2 = os.
Proof.
  assert (Hlogs : logs saved = []).
  { rewrite (issued_saves_buffer _ _ _ Hsaved). unfold complete. cbn.
    by rewrite Hinstall. }
  split; [done|]. intros os old uid mode Hwrite Hnode.
  destruct (saveLogsToFile_appended saved os Hwrite) as (old' & uid' & mode' & Hcase & ->).
  { intros ??. by rewrite Hnode. }
  destruct Hcase as [Hsame|[Hnone _]]; [|by rewrite Hnode in Hnone].
  rewrite Hnode in Hsame. injection Hsame as <- <- <-.
  rewrite Hlogs. cbn [snd logBlock].
  by rewrite append_nil_r, insert_id, set_nodes_same.
Qed.

Lemma save_after_install_saves_nothing_witness :
  state installingModel = installView
  ∧ ∃ saved,
      CmdSaveLogsToFile saved
      ∈ issued (complete installingModel (StatusMsg "Successfully installed niri" None))
               (map KeyMsg ["down"; "down"; "down"; "down"; "enter"])
      ∧ logs saved = [].
Proof.
  split; [reflexivity|].
  eexists. 
  assert (Hin : CmdSaveLogsToFile
                  (Model actionView (choices initialModel) 4 "Save Logs" [] true ""
                         "Saving logs...")
                ∈ issued (complete installingModel (StatusMsg "Successfully installed niri" None))
                         (map KeyMsg ["down"; "down"; "down"; "down"; "enter"]))
    by (vm_compute; left).
  split; [exact Hin|].
  exact (proj1 (save_after_install_saves_nothing installingModel _
                  "Successfully installed niri" _ eq_refl Hin)).
Defined.

(** ** Environment bootstrap *)

Lemma setupEnvironment_boots os :
  0 <= euid os < 2 ^ 32 →
  (∃ os', setupEnvironment os = Booted os')
  ↔ (runtimeDirOf (euid os) ∉ nostat os)
    ∧ ((nodes os !! runtimeDirOf (euid os) = None
        ∧ runtimeDirOf (euid os) ∉ nowrite os)
       ∨ ∃ n, nodes os !! runtimeDirOf (euid os) = Some n ∧ node_uid n = euid os).
Proof.
  intros Heuid. split.
  - intros [os' Hboot].
    destruct (decide (runtimeDirOf (euid os) ∈ nostat os)) as [Hstat|Hstat].
    { by rewrite bootstrap_stat_fails in Hboot. }
    split; [done|].
    destruct (nodes os !! runtimeDirOf (euid os)) as [n|] eqn:Hnode.
    + right. exists n. split; [done|].
      destruct (decide (node_uid n = euid os)) as [|Huid]; [done|].
      by rewrite (bootstrap_foreign_owner os Heuid n) in Hboot.
    + left. split; [done|]. intros Hwrite.
      by rewrite bootstrap_create_fails in Hboot.
  - intros [Hstat [[Hnode Hwrite]|(n & Hnode & Huid)]].
    + eexists. by apply bootstrap_creates.
    + eexists. by eapply bootstrap_own.
Qed.

(** X8: [setupEnvironment] returns, rather than ending the process, exactly
    when the stat of the runtime directory is not refused and either nothing
    is there and the creation is not refused, or what is there, directory or
    not and whatever its mode, is owned by the effective UID. *)
Theorem bootstrap_succeeds_iff (os : OS) (Heuid : 0 <= euid os < 2 ^ 32) :
  (∃ os', setupEnvironment os = Booted os')
  ↔ (runtimeDirOf (euid os) ∉ nostat os)
    ∧ ((nodes os !! runtimeDirOf (euid os) = None
        ∧ runtimeDirOf (euid os) ∉ nowrite os)
       ∨ ∃ n, nodes os !! runtimeDirOf (euid os) = Some n ∧ node_uid n = euid os).
Proof. by apply setupEnvironment_boots. Qed.

Lemma bootstrap_succeeds_iff_witness :
  0 <= euid sampleOS < 2 ^ 32 ∧ ∃ os', setupEnvironment sampleOS = Booted os'.
Proof.
  assert (Heuid : 0 <= euid sampleOS < 2 ^ 32) by (by vm_compute).
  split; [exact Heuid|].
  apply (bootstrap_succeeds_iff sampleOS Heuid).
  split; [exact (not_elem_of_empty _)|].
  left. split; [by vm_compute|exact (not_elem_of_empty _)].
Defined.

Lemma Setenv_settled key value os n :
  Setenv key value (set_nodes (Setenv key value os) n)
  = set_nodes (Setenv key value os) n.
Proof.
  unfold Setenv, set_env, set_nodes. cbn. by rewrite insert_insert_eq.
Qed.

(** X9: when [setupEnvironment] returns, [XDG_RUNTIME_DIR] names the
    runtime directory, something owned by the effective UID is there, and a
    second run returns too and changes nothing. *)
Theorem bootstrap_idempotent (os os' : OS) (Heuid : 0 <= euid os < 2 ^ 32)
    (Hboot : setupEnvironment os = Booted os') :
  setupEnvironment os' = Booted os'
  ∧ Getenv "XDG_RUNTIME_DIR" os' = runtimeDirOf (euid os)
  ∧ ∃ n, Stat (runtimeDirOf (euid os)) os' = Ok n ∧ node_uid n = euid os.
Proof.
  assert (∃ n, os' = set_nodes (Setenv "XDG_RUNTIME_DIR" (runtimeDirOf (euid os)) os) n
               ∧ ∃ node, n !! runtimeDirOf (euid os) = Some node
                         ∧ node_uid node = euid os
                         ∧ runtimeDirOf (euid os) ∉ nostat os)
    as (n & -> & node & Hnode & Huid & Hstat).
  { destruct (proj1 (setupEnvironment_boots os Heuid) (ex_intro _ os' Hboot))
      as [Hstat [[Hnone Hwrite]|(node & Hnode & Huid)]].
    - rewrite bootstrap_creates in Hboot by done. injection Hboot as <-.
      eexists. split; [done|]. eexists. by rewrite lookup_insert_eq.
    - rewrite (bootstrap_own os Heuid node) in Hboot by done.
      injection Hboot as <-. exists (nodes os).
      split; [|by eauto].
      exact (eq_sym (set_nodes_same
                       (Setenv "XDG_RUNTIME_DIR" (runtimeDirOf (euid os)) os))). }
  split; [|split].
  - rewrite (bootstrap_own
               (set_nodes (Setenv "XDG_RUNTIME_DIR" (runtimeDirOf (euid os)) os) n)
               Heuid node) by done.
    cbn [euid set_nodes Setenv set_env]. f_equal. apply Setenv_settled.
  - unfold Getenv. cbn. by rewrite lookup_insert_eq.
  - exists node. split; [|done]. unfold Stat. cbn [nostat nodes set_nodes Setenv set_env].
    by rewrite decide_False, Hnode by done.
Qed.

Lemma bootstrap_idempotent_witness :
  0 <= euid sampleOS < 2 ^ 32
  ∧ ∃ os', setupEnvironment sampleOS = Booted os'
      ∧ setupEnvironment os' = Booted os'
      ∧ Getenv "XDG_RUNTIME_DIR" os' = "/tmp/1001-runtime-dir".
Proof.
  assert (Heuid : 0 <= euid sampleOS < 2 ^ 32) by (by vm_compute).
  split; [exact Heuid|].
  eexists. 
  assert (Hboot : setupEnvironment sampleOS
            = Booted (set_nodes (Setenv "XDG_RUNTIME_DIR" "/tmp/1001-runtime-dir" sampleOS)
                        (<["/tmp/1001-runtime-dir" := Dir 1001 448]> (nodes sampleOS)))).
  { apply bootstrap_creates;
      [by vm_compute|exact (not_elem_of_empty _)|exact (not_elem_of_empty _)]. }
  split; [exact Hboot|].
  destruct (bootstrap_idempotent sampleOS _ Heuid Hboot) as (Hagain & Henv & _).
  split; [exact Hagain|exact Henv].
Defined.

(** ** The install action *)

Section InstallMore.
Context `{Platform}.



Lemma installEach_all_present todo :
  (∀ os pkg, p_err (sys os (infoCmd pkg)) = None) →
  ∀ logs failed os,
    ∃ os' h,
      installEach todo logs failed os
      = ((logs ++ map (λ pkg, "Already installed: " +:+ pkg) todo, failed), os')
      ∧ history os' = history os ++ h
      ∧ map pe_argv h = map infoCmd todo.
Proof.
  intros Hall. induction todo as [|pkg rest IH]; intros logs failed os.
  - exists os, []. by rewrite !app_nil_r.
  - cbn [installEach].
    destruct (isPackageInstalled_history pkg os) as (out & e & os1 & Hrun & Hh1).
    assert (e = None) as ->.
    { unfold isPackageInstalled, Run, bind, CombinedOutput, ret in Hrun.
      cbn [snd] in Hrun. change ["pkg"; "info"; pkg] with (infoCmd pkg) in Hrun.
      rewrite Hall in Hrun. by destruct e. }
    erewrite run_bind by exact Hrun.
    destruct (IH (logs ++ ["Already installed: " +:+ pkg]) failed os1)
      as (os' & h & -> & Hh & Hargv).
    exists os', (ProcEntry (infoCmd pkg) out None :: h).
    rewrite <- app_assoc. split; [done|].
    split; [by rewrite Hh, Hh1, <- app_assoc|]. cbn [map pe_argv]. by rewrite Hargv.
Qed.
End InstallMore.


(** X11: on a machine where every presence check succeeds, [installNiri]
    runs the presence checks of the packages in list order and nothing
    else, and returns without error the [Already installed] entries of all
    packages. *)
Theorem install_all_present `{Platform} (os : OS)
    (Hpresent : ∀ o pkg, p_err (sys o (infoCmd pkg)) = None) :
  ∃ h,
    history (installNiri os).2 = history os ++ h
    ∧ map pe_argv h = map infoCmd pkgs
    ∧ (installNiri os).1
      = StatusMsg (Join (map (λ pkg, "Already installed: " +:+ pkg) pkgs) nl) None.
Proof.
  destruct (installEach_all_present pkgs Hpresent [] [] os)
    as (os' & h & Hrun & Hh & Hargv).
  exists h. unfold installNiri. erewrite run_bind by exact Hrun.
  unfold ret. cbn [fst snd]. done.
Qed.

Lemma install_all_present_witness :
  (∀ o pkg, p_err (@sys allPresentPlatform o (infoCmd pkg)) = None)
  ∧ ∃ h,
      history (@installNiri allPresentPlatform sampleOS).2 = history sampleOS ++ h
      ∧ map pe_argv h = map infoCmd pkgs
      ∧ (@installNiri allPresentPlatform sampleOS).1
        = StatusMsg (Join (map (λ pkg, "Already installed: " +:+ pkg) pkgs) nl) None.
Proof.
  assert (Hpresent : ∀ o pkg, p_err (@sys allPresentPlatform o (infoCmd pkg)) = None)
    by (intros o pkg; reflexivity).
  split; [exact Hpresent|].
  exact (@install_all_present allPresentPlatform sampleOS Hpresent).
Defined.

(** ** The older install loop *)

Section InstallOld.
Context `{Platform}.
Variable errorf : string → string.

Lemma installEachOld_run todo : ∀ logs os,
  ∃ h,
    history (installEachOld errorf todo logs os).2 = history os ++ h
    ∧ ((map pe_argv h = map installCmd todo
        ∧ Forall (λ entry, pe_err entry = None) h
        ∧ (installEachOld errorf todo logs os).1
          = StatusMsg (Join (logs ++ map (λ pkg, "Successfully installed " +:+ pkg) todo) nl)
                      None)
       ∨ (∃ before pkg after hok out e,
            todo = before ++ pkg :: after
            ∧ h = hok ++ [ProcEntry (installCmd pkg) out (Some e)]
            ∧ map pe_argv hok = map installCmd before
            ∧ Forall (λ entry, pe_err entry = None) hok
            ∧ (installEachOld errorf todo logs os).1
              = StatusMsg ("Failed to install " +:+ pkg)
                          (Some (ErrorString (errorf out))))).
Proof.
  induction todo as [|pkg rest IH]; intros logs os.
  - exists []. rewrite !app_nil_r. split; [done|]. left. by repeat split.
  - cbn [installEachOld].
    destruct (CombinedOutput_history (installCmd pkg) os)
      as (out & e & os1 & Hrun & Hh1).
    change ["sudo"; "pkg"; "install"; "-y"; pkg] with (installCmd pkg).
    erewrite run_bind by exact Hrun. destruct e as [e|].
    + exists [ProcEntry (installCmd pkg) out (Some e)]. split; [done|]. right.
      by exists [], pkg, rest, [], out, e.
    + destruct (IH (logs ++ ["Successfully installed " +:+ pkg]) os1)
        as (h & Hh & Hcase).
      exists (ProcEntry (installCmd pkg) out None :: h).
      split; [by rewrite Hh, Hh1, <- app_assoc|].
      destruct Hcase as [(Hargv & Hok & Hmsg)
                        |(before & p & after & hok & o & e & -> & -> & Hargv & Hok & Hmsg)].
      * left. split; [cbn [map pe_argv]; by rewrite Hargv|].
        split; [by constructor|]. by rewrite Hmsg, <- app_assoc.
      * right. exists (pkg :: before), p, after,
                 (ProcEntry (installCmd pkg) out None :: hok), o, e.
        split; [done|]. split; [done|].
        split; [cbn [map pe_argv]; by rewrite Hargv|]. split; [by constructor|done].
Qed.
End InstallOld.

(** X12: the install action of the two older variants stops at the first
    failed install: either every package was installed, in list order, and
    the status lists them all with no error; or the failed install is the
    last child process, the packages after it are not touched, and the
    status names the failed package only, leaving out the ones installed
    before it. *)
Theorem old_install_stops_at_first_failure `{Platform}
    (errorf : string → string) (os : OS) :
  ∃ h,
    history (installNiriOld errorf os).2 = history os ++ h
    ∧ ((map pe_argv h = map installCmd pkgsOld
        ∧ Forall (λ entry, pe_err entry = None) h
        ∧ (installNiriOld errorf os).1
          = StatusMsg (Join (map (λ pkg, "Successfully installed " +:+ pkg) pkgsOld) nl)
                      None)
       ∨ (∃ before pkg after hok out e,
            pkgsOld = before ++ pkg :: after
            ∧ h = hok ++ [ProcEntry (installCmd pkg) out (Some e)]
            ∧ map pe_argv hok = map installCmd before
            ∧ Forall (λ entry, pe_err entry = None) hok
            ∧ (installNiriOld errorf os).1
              = StatusMsg ("Failed to install " +:+ pkg)
                          (Some (ErrorString (errorf out))))).
Proof. apply (installEachOld_run errorf pkgsOld [] os). Qed.

(** ** The profile step *)

Lemma appendedAt_refl p os n : appendedAt p os n n.
Proof.
  split; [done|]. destruct (n !! p) as [[data uid mode|]|]; [|done|by left].
  exists "". by rewrite append_nil_r.
Qed.

Lemma appendedAt_trans p os n1 n2 n3 :
  appendedAt p os n1 n2 → appendedAt p os n2 n3 → appendedAt p os n1 n3.
Proof.
  intros [Hothers12 Hp12] [Hothers23 Hp23]. split.
  { intros q Hq. by rewrite Hothers23, Hothers12. }
  destruct (n1 !! p) as [[data uid mode|uid mode]|].
  - destruct Hp12 as [s1 Hp12]. rewrite Hp12 in Hp23. destruct Hp23 as [s2 ->].
    exists (s1 +:+ s2). by rewrite append_assoc.
  - by rewrite Hp12 in Hp23.
  - destruct Hp12 as [Hp12|[data Hp12]]; rewrite Hp12 in Hp23; [done|].
    destruct Hp23 as [s2 ->]. right. eauto.
Qed.

Lemma OpenFile_append_appended p os n :
  ∃ e n', OpenFile_append p 420 (set_nodes os n) = (e, set_nodes os n')
          ∧ appendedAt p os n n'.
Proof.
  unfold OpenFile_append. cbn [nowrite nodes euid set_nodes].
  destruct (decide _); [eexists _, n; split; [done|apply appendedAt_refl]|].
  destruct (n !! p) as [[data uid mode|uid mode]|] eqn:Hp;
    [eexists _, n; split; [done|apply appendedAt_refl]..|].
  eexists _, _. split; [done|]. split.
  - intros q Hq. by rewrite lookup_insert_ne.
  - rewrite Hp. right. eexists. apply lookup_insert_eq.
Qed.

Lemma WriteString_appended p s os n :
  ∃ n', WriteString p s (set_nodes os n) = set_nodes os n' ∧ appendedAt p os n n'.
Proof.
  unfold WriteString. cbn [nodes set_nodes].
  destruct (n !! p) as [[data uid mode|uid mode]|] eqn:Hp;
    [|exists n; split; [done|apply appendedAt_refl]..].
  eexists. split; [done|]. split.
  - intros q Hq. by rewrite lookup_insert_ne.
  - rewrite Hp. exists s. apply lookup_insert_eq.
Qed.

Lemma profileXDG_appended p xdgLine logs os n :
  ∃ r n', profileXDG p xdgLine logs (set_nodes os n) = (r, set_nodes os n')
          ∧ appendedAt p os n n'.
Proof.
  unfold profileXDG. rewrite bind_get.
  destruct (readFile p (set_nodes os n)) as [str e].
  destruct (_ || _); [|eexists _, n; split; [done|apply appendedAt_refl]].
  destruct (OpenFile_append_appended p os n) as (e1 & n1 & Hopen & H1).
  unfold act. erewrite run_bind by exact Hopen.
  destruct e1 as [e1|]; [by eexists _, n1|].
  unfold bind at 1, modify at 1.
  destruct (WriteString_appended p (nl +:+ "# Set XDG_RUNTIME_DIR for Wayland compositors" +:+ nl)
              os n1) as (n2 & -> & H2).
  unfold bind at 1, modify at 1.
  destruct (WriteString_appended p (xdgLine +:+ nl) os n2) as (n3 & -> & H3).
  rewrite bind_get. destruct (readFile p _) as [str' e'].
  eexists _, n3. split; [done|].
  eapply appendedAt_trans; [exact H1|]. by eapply appendedAt_trans.
Qed.

Lemma profileLibseat_appended p str logs os n :
  ∃ r n', profileLibseat p str logs (set_nodes os n) = (r, set_nodes os n')
          ∧ appendedAt p os n n'.
Proof.
  unfold profileLibseat.
  destruct (negb _); [|eexists _, n; split; [done|apply appendedAt_refl]].
  destruct (OpenFile_append_appended p os n) as (e1 & n1 & Hopen & H1).
  unfold act. erewrite run_bind by exact Hopen.
  destruct e1 as [e1|]; [by eexists _, n1|].
  unfold bind at 1, modify at 1.
  destruct (WriteString_appended p ("export LIBSEAT_BACKEND=consolekit2" +:+ nl) os n1)
    as (n2 & -> & H2).
  eexists _, n2. split; [done|]. by eapply appendedAt_trans.
Qed.

Lemma profileStep_appended logs os :
  ∃ n', (profileStep logs os).2 = set_nodes os n'
        ∧ appendedAt (profilePathOf os) os (nodes os) n'.
Proof.
  unfold profileStep, profilePathOf. rewrite bind_get.
  destruct (UserHomeDir os) as [homeDir e0]. cbn [fst]. rewrite bind_get.
  destruct (profileXDG_appended (filepath_Join [homeDir; ".profile"])
              ("export XDG_RUNTIME_DIR=/tmp/" +:+ pretty (euid os) +:+ "-runtime-dir")
              logs os (nodes os)) as ([logs1 str] & n1 & Hrun1 & H1).
  rewrite set_nodes_same in Hrun1. erewrite run_bind by exact Hrun1.
  destruct (profileLibseat_appended (filepath_Join [homeDir; ".profile"]) str logs1 os n1)
    as (logs2 & n2 & -> & H2).
  exists n2. split; [done|]. by eapply appendedAt_trans.
Qed.

(** X13: the profile step changes nothing of the machine but the files, and
    of the files no path but the profile. *)
Theorem profile_step_writes_profile_only (os : OS) (logs : list string) :
  ∃ n', (profileStep logs os).2 = set_nodes os n'
        ∧ ∀ q, q ≠ profilePathOf os → n' !! q = nodes os !! q.
Proof.
  destruct (profileStep_appended logs os) as (n' & Hrun & Hothers & _). eauto.
Qed.

(** X14: the profile step only appends: the text an existing profile had is
    a prefix of the text it has afterwards, with owner and mode as before. *)
Theorem profile_step_keeps_old_text (os : OS) (logs : list string)
    (old : string) (uid mode : Z)
    (Hprofile : nodes os !! profilePathOf os = Some (File old uid mode)) :
  ∃ suffix,
    nodes (profileStep logs os).2 !! profilePathOf os
    = Some (File (old +:+ suffix) uid mode).
Proof.
  destruct (profileStep_appended logs os) as (n' & -> & _ & Hp).
  by rewrite Hprofile in Hp.
Qed.

Lemma profile_step_keeps_old_text_witness :
  nodes writeOnlyProfileOS !! profilePathOf writeOnlyProfileOS
  = Some (File "" 1001 128)
  ∧ ∃ suffix,
      nodes (profileStep [] writeOnlyProfileOS).2 !! profilePathOf writeOnlyProfileOS
      = Some (File ("" +:+ suffix) 1001 128).
Proof.
  assert (Hprofile : nodes writeOnlyProfileOS !! profilePathOf writeOnlyProfileOS
                     = Some (File "" 1001 128)) by (by vm_compute).
  split; [exact Hprofile|].
  exact (profile_step_keeps_old_text writeOnlyProfileOS [] "" 1001 128 Hprofile).
Defined.

Lemma Contains_first s c sub :
  Contains s (String c sub) = true → Contains s (String c "") = true.
Proof.
  induction s as [|a s IH]; [done|]. cbn [Contains String.prefix].
  destruct (ascii_dec c a) as [->|Hne].
  - intros _. by rewrite prefix_empty.
  - cbn [orb]. apply IH.
Qed.

Lemma Contains_char_app s t c :
  Contains (s +:+ t) (String c "") = Contains s (String c "") || Contains t (String c "").
Proof.
  induction s as [|a s IH]; [by destruct t|].
  change (String a s +:+ t) with (String a (s +:+ t)).
  cbn [Contains String.prefix]. rewrite IH.
  destruct (ascii_dec c a); [by rewrite !prefix_empty|done].
Qed.

Lemma pretty_N_go_plain x : ∀ s,
  Contains s "L" = false → Contains (pretty_N_go x s) "L" = false.
Proof.
  induction (N.lt_wf_0 x) as [x _ IH]; intros s Hs.
  destruct (decide (0 < x)%N) as [Hpos|Hzero].
  - rewrite pretty_N_go_step by done. apply IH; [by apply N.div_lt|].
    cbn [Contains String.prefix]. rewrite Hs, orb_false_r.
    unfold pretty_N_char. by repeat case_match.
  - by replace x with 0%N by lia.
Qed.

Lemma pretty_Z_plain (z : Z) : Contains (pretty z) "L" = false.
Proof.
  unfold pretty, pretty_Z. destruct z as [|x|x]; [done|..];
    unfold pretty, pretty_positive, pretty, pretty_N;
    (destruct (decide _); [done|]).
  - by apply pretty_N_go_plain.
  - rewrite (Contains_char_app "-"). by rewrite pretty_N_go_plain.
Qed.

Lemma xdg_lines_without_libseat (uid : Z) (s : string) :
  s = ("" +:+ nl +:+ "# Set XDG_RUNTIME_DIR for Wayland compositors" +:+ nl)
      +:+ ("export XDG_RUNTIME_DIR=/tmp/" +:+ pretty uid +:+ "-runtime-dir") +:+ nl →
  Contains s "LIBSEAT_BACKEND" = false.
Proof.
  intros ->. destruct (Contains _ "LIBSEAT_BACKEND") eqn:Hc; [|done].
  apply Contains_first in Hc.
  rewrite !Contains_char_app, pretty_Z_plain in Hc. done.
Qed.

Lemma profileStep_fresh logs os :
  nodes os !! profilePathOf os = None →
  profilePathOf os ∉ noread os → profilePathOf os ∉ nowrite os →
  nodes (profileStep logs os).2 !! profilePathOf os
  = Some (File ((nl +:+ "# Set XDG_RUNTIME_DIR for Wayland compositors" +:+ nl)
                +:+ ("export XDG_RUNTIME_DIR=" +:+ runtimeDirOf (euid os) +:+ nl)
                +:+ ("export LIBSEAT_BACKEND=consolekit2" +:+ nl))
               (euid os) (created_mode os 420)).
Proof.
  unfold profilePathOf, profileStep. rewrite bind_get.
  destruct (UserHomeDir os) as [homeDir e0]. cbn [fst]. rewrite bind_get.
  generalize (filepath_Join [homeDir; ".profile"]). intros p Hnode Hread Hwrite.
  run_profile.
  rewrite (xdg_lines_without_libseat (euid os) _ eq_refl).
  run_profile. reflexivity.
Qed.

(** X15: on a machine without a profile, where one can be created and
    read, the profile step makes it with exactly a blank line, the comment,
    the export of [XDG_RUNTIME_DIR] set to the runtime directory that
    [setupEnvironment] uses, and the export of [LIBSEAT_BACKEND]. *)
Theorem fresh_profile_gets_both_lines (os : OS) (logs : list string)
    (Habsent : nodes os !! profilePathOf os = None)
    (Hread : profilePathOf os ∉ noread os)
    (Hwrite : profilePathOf os ∉ nowrite os) :
  nodes (profileStep logs os).2 !! profilePathOf os
  = Some (File ((nl +:+ "# Set XDG_RUNTIME_DIR for Wayland compositors" +:+ nl)
                +:+ ("export XDG_RUNTIME_DIR=" +:+ runtimeDirOf (euid os) +:+ nl)
                +:+ ("export LIBSEAT_BACKEND=consolekit2" +:+ nl))
               (euid os) (created_mode os 420)).
Proof. by apply profileStep_fresh. Qed.

Lemma fresh_profile_gets_both_lines_witness :
  nodes sampleOS !! profilePathOf sampleOS = None
  ∧ (profilePathOf sampleOS ∉ noread sampleOS)
  ∧ (profilePathOf sampleOS ∉ nowrite sampleOS)
  ∧ nodes (profileStep [] sampleOS).2 !! profilePathOf sampleOS
    = Some (File ((nl +:+ "# Set XDG_RUNTIME_DIR for Wayland compositors" +:+ nl)
                  +:+ ("export XDG_RUNTIME_DIR=" +:+ runtimeDirOf (euid sampleOS) +:+ nl)
                  +:+ ("export LIBSEAT_BACKEND=consolekit2" +:+ nl))
                 (euid sampleOS) (created_mode sampleOS 420)).
Proof.
  assert (Habsent : nodes sampleOS !! profilePathOf sampleOS = None)
    by (by vm_compute).
  assert (Hread : profilePathOf sampleOS ∉ noread sampleOS)
    by exact (not_elem_of_empty _).
  assert (Hwrite : profilePathOf sampleOS ∉ nowrite sampleOS)
    by exact (not_elem_of_empty _).
  split; [exact Habsent|]. split; [exact Hread|]. split; [exact Hwrite|].
  exact (fresh_profile_gets_both_lines sampleOS [] Habsent Hread Hwrite).
Defined.

(** ** Configuration *)

Lemma WriteFile_refused name data perm os e os' :
  WriteFile name data perm os = (Some e, os') → os' = os.
Proof.
  unfold WriteFile. destruct (decide _); [by intros [= _ <-]|].
  destruct (nodes os !! name) as [[]|]; by intros [= _ <-].
Qed.

Lemma configureNiri_run os :
  let configDir := filepath_Join [(UserHomeDir os).1; ".config"; "niri"] in
  let dest := filepath_Join [configDir; "config.kdl"] in
  ∃ n1,
    (∀ p data uid mode,
       n1 !! p = Some (File data uid mode) ↔ nodes os !! p = Some (File data uid mode))
    ∧ ((is_Some (err (configureNiri os).1) ∧ (configureNiri os).2 = set_nodes os n1)
       ∨ (err (configureNiri os).1 = None
          ∧ MkdirAll configDir 493 os = (None, set_nodes os n1)
          ∧ ∃ exePath src tmpl uid mode,
              exe os = Some exePath
              ∧ src = (if IsNotExist (statErr (besideExe exePath) (set_nodes os n1))
                       then inCwd os else besideExe exePath)
              ∧ ReadFile src (set_nodes os n1) = Ok tmpl
              ∧ nodes (configureNiri os).2 !! dest
                = Some (File (if negb (findRenderDevice (set_nodes os n1) =? "")%string
                                 && negb (Contains tmpl "render-drm-device")
                              then tmpl +:+ debugBlock (findRenderDevice (set_nodes os n1))
                              else tmpl) uid mode))).
Proof.
  intros configDir dest. subst configDir dest.
  remember (configureNiri os) as r eqn:Hr.
  unfold configureNiri in Hr. rewrite bind_get in Hr.
  destruct (UserHomeDir os) as [homeDir [e|]].
  { unfold ret in Hr. subst r. exists (nodes os). split; [done|]. left.
    split; [by eexists|by rewrite set_nodes_same]. }
  cbn [fst]. unfold MkdirAll in *.
  destruct (mkdirEach_frame (ancestors (filepath_Join [homeDir; ".config"; "niri"])) 493 os)
    as (e1 & n1 & Hmk & Hfiles).
  erewrite run_bind in Hr by exact Hmk. exists n1. split; [done|].
  destruct e1 as [e1|]; [unfold ret in Hr; subst r; left; split; [by eexists|done]|].
  rewrite bind_get in Hr. unfold Executable in Hr. cbn [exe set_nodes] in Hr.
  destruct (exe os) as [exePath|] eqn:Hexe;
    [|unfold ret in Hr; subst r; left; split; [by eexists|done]].
  rewrite bind_get in Hr. fold (besideExe exePath) in Hr.
  set (src := if IsNotExist (statErr (besideExe exePath) (set_nodes os n1))
              then inCwd os else besideExe exePath).
  assert (∀ B (k : string → M B),
            bind (if IsNotExist (statErr (besideExe exePath) (set_nodes os n1))
                  then bind (get cwd) (λ cwd, ret (filepath_Join [cwd; "config.kdl"]))
                  else ret (besideExe exePath)) k (set_nodes os n1)
            = k src (set_nodes os n1)) as Hbind.
  { intros B k. subst src. by destruct (IsNotExist _). }
  rewrite Hbind in Hr. clear Hbind. rewrite bind_get in Hr.
  destruct (IsNotExist (statErr src (set_nodes os n1))) eqn:Hexists.
  { unfold ret in Hr. subst r. left. split; [|done]. cbn [fst err].
    destruct (statErr src _); [by eexists|done]. }
  rewrite bind_get in Hr. unfold readFile in Hr.
  destruct (ReadFile src (set_nodes os n1)) as [tmpl|e] eqn:Hread;
    [|unfold ret in Hr; subst r; left; split; [by eexists|done]].
  rewrite bind_get in Hr.
  match type of Hr with
  | context [act (WriteFile ?p ?d 420)] =>
    destruct (WriteFile p d 420 (set_nodes os n1)) as [[e|] os2] eqn:Hwrite
  end;
    erewrite run_bind in Hr by exact Hwrite; unfold ret in Hr; subst r.
  { left. split; [by eexists|]. by apply WriteFile_refused in Hwrite as ->. }
  apply WriteFile_written in Hwrite as [(uid & mode & Hdest) _].
  right. split; [done|]. split; [done|].
  exists exePath, src, tmpl, uid, mode. done.
Qed.



(** X17: the template beside the executable takes precedence: a successful
    Configure writes the text of that file when it exists, and the text of
    the [config.kdl] of the working directory only when nothing is beside
    the executable. *)
Theorem configure_prefers_template_beside_executable (os : OS) (exePath : string)
    (Hok : err (configureNiri os).1 = None) (Hexe : exe os = Some exePath)
    (Hstat : besideExe exePath ∉ nostat os) :
  let configDir := filepath_Join [(UserHomeDir os).1; ".config"; "niri"] in
  let dest := filepath_Join [configDir; "config.kdl"] in
  let dev := findRenderDevice (MkdirAll configDir 493 os).2 in
  let written tmpl :=
    if negb (dev =? "")%string && negb (Contains tmpl "render-drm-device")
    then tmpl +:+ debugBlock dev else tmpl in
  (∀ tmpl uid mode,
     nodes os !! besideExe exePath = Some (File tmpl uid mode) →
     ∃ uid' mode', nodes (configureNiri os).2 !! dest = Some (File (written tmpl) uid' mode'))
  ∧ (nodes os !! besideExe exePath = None →
     ∃ tmpl uid' mode',
       ReadFile (inCwd os) os = Ok tmpl
       ∧ nodes (configureNiri os).2 !! dest = Some (File (written tmpl) uid' mode')).
Proof.
  intros configDir dest dev written. subst configDir dest dev written.
  destruct (configureNiri_run os) as (n1 & Hfiles & [[Hfailed _]|Hrun]).
  { rewrite Hok in Hfailed. by destruct Hfailed. }
  destruct Hrun as (_ & -> & exe' & src & tmpl0 & uid0 & mode0 & Hexe' & Hsrc & Hread & Hdest).
  rewrite Hexe in Hexe'. injection Hexe' as <-. cbn [snd].
  unfold statErr, Stat in Hsrc. cbn [nostat nodes set_nodes] in Hsrc.
  rewrite decide_False in Hsrc by done.
  split.
  - intros tmpl uid mode Hbeside. apply Hfiles in Hbeside.
    rewrite Hbeside in Hsrc. cbn [IsNotExist] in Hsrc. subst src.
    unfold ReadFile in Hread. cbn [noread nodes set_nodes] in Hread.
    rewrite Hbeside in Hread. destruct (decide _); [done|].
    injection Hread as <-. eauto.
  - intros Hnone.
    destruct (n1 !! besideExe exePath) as [[data uid mode|uid mode]|] eqn:Hbeside.
    + apply Hfiles in Hbeside. by rewrite Hnone in Hbeside.
    + cbn [IsNotExist] in Hsrc. subst src.
      unfold ReadFile in Hread. cbn [noread nodes set_nodes] in Hread.
      rewrite Hbeside in Hread. by destruct (decide _).
    + cbn [IsNotExist] in Hsrc. subst src. exists tmpl0, uid0, mode0.
      split; [by eapply ReadFile_frame|done].
Qed.

Lemma configure_prefers_template_beside_executable_witness :
  err (configureNiri sampleOS).1 = None
  ∧ exe sampleOS = Some "/opt/niri/NiriSetup"
  ∧ (besideExe "/opt/niri/NiriSetup" ∉ nostat sampleOS)
  ∧ ∃ uid' mode',
      nodes (configureNiri sampleOS).2 !! "/home/u/.config/niri/config.kdl"
      = Some (File ("layout {}" +:+ debugBlock "/dev/dri/renderD128") uid' mode').
Proof.
  assert (Hok : err (configureNiri sampleOS).1 = None) by (vm_compute; reflexivity).
  assert (Hstat : besideExe "/opt/niri/NiriSetup" ∉ nostat sampleOS)
    by exact (not_elem_of_empty _).
  split; [exact Hok|]. split; [reflexivity|]. split; [exact Hstat|].
  exact (proj1 (configure_prefers_template_beside_executable
                  sampleOS "/opt/niri/NiriSetup" Hok eq_refl Hstat)
               "layout {}" 0 420 eq_refl).
Defined.
